(** * TwitchChannelPointsMiner: the session orchestrator

    A shallow embedding of [TwitchChannelPointsMiner.py] (class
    [TwitchChannelPointsMiner]: [__init__], [mine], [run], [end] and
    [__print_report]) together with the properties of its run / shutdown
    life cycle.

    Python objects that are mutated through several references (the
    [Streamer] instances held by [self.streamers], by the pool and by the
    minute-watcher thread, and their [copy.deepcopy] in
    [self.original_streamers]) live in an explicit heap; the miner holds
    locations.  Calls into the collaborators, log lines and writes to the
    shared [running] flag are recorded, in program order, in a trace. *)

From Stdlib Require Import ZArith String Ascii.
From stdpp Require Import base tactics option list relations.

Local Open Scope string_scope.
Local Open Scope list_scope.
Local Open Scope Z_scope.

(** ** Data model *)

(** Heap locations: the identity of a Python object. *)
Abbreviation loc := nat (only parsing).

(** Modelled from the spec: the [Streamer] class (classes/Streamer.py) is
    not part of the sources.  Its fields are those the orchestrator reads
    and section 3 of the specification lists: identity (name, numeric id),
    the online flag, the point balance and the history log.  The history
    is a Python dict compared against [{}]; it is kept as an association
    list in insertion order. *)
Record Streamer := {
  username : string;
  channel_id : Z;
  is_online : bool;
  channel_points : Z;
  history : list (string * Z)
}.

(** [Streamer(streamer_username, channel_id)]. *)
Definition new_Streamer (name : string) (id : Z) : Streamer :=
  {| username := name; channel_id := id; is_online := false;
     channel_points := 0; history := [] |}.

Definition with_channel_points (p : Z) (s : Streamer) : Streamer :=
  {| username := username s; channel_id := channel_id s;
     is_online := is_online s; channel_points := p; history := history s |}.

Definition with_online (b : bool) (s : Streamer) : Streamer :=
  {| username := username s; channel_id := channel_id s;
     is_online := b; channel_points := channel_points s;
     history := history s |}.

Definition with_history (h : list (string * Z)) (s : Streamer) : Streamer :=
  {| username := username s; channel_id := channel_id s;
     is_online := is_online s; channel_points := channel_points s;
     history := h |}.

(** [PubsubTopic(name, user_id=...)] and [PubsubTopic(name, streamer=...)];
    the second form keeps a reference to the streamer object. *)
Inductive PubsubTopic :=
| UserTopic (topic : string) (user_id : Z)
| StreamerTopic (topic : string) (streamer : loc).

(** Settings objects are opaque to the orchestrator: it stores them, hands
    them on and renders [bet_settings] in the report. *)
Definition LoggerSettings := string.
Definition BrowserSettings := string.
Definition BetSettings := string.

(** [Twitch(username)], with the [running] attribute that [end] assigns. *)
Record Twitch := {
  tw_username : string;
  tw_running : bool
}.

(** [TwitchBrowser(auth_token, session_id, settings=...)]. *)
Record TwitchBrowser := {
  tb_auth_token : string;
  tb_session_id : string;
  tb_settings : BrowserSettings
}.

(** [threading.Thread(target=..., args=...)] with its [daemon] flag. *)
Record Thread := {
  daemon : bool;
  is_alive : bool
}.

(** [WebSocketsPool(twitch=..., twitch_browser=..., streamers=...,
    bet_settings=..., events_predictions=...)]: the by-value arguments
    are kept; [twitch], [streamers] and [events_predictions] are
    references to the miner's own objects. *)
Record WebSocketsPool := {
  pool_browser : option TwitchBrowser;
  pool_bet_settings : BetSettings
}.

(** The attributes of a [TwitchChannelPointsMiner] instance, as
    [__init__] declares them. *)
Record Miner := {
  twitch : Twitch;
  twitch_browser : option TwitchBrowser;
  follow_raid : bool;
  streamers : list loc;
  events_predictions : list (string * string);
  minute_watcher_thread : option Thread;
  ws_pool : option WebSocketsPool;
  make_predictions : bool;
  browser_settings : BrowserSettings;
  bet_settings : BetSettings;
  session_id : string;
  running : bool;
  start_datetime : option Z;
  original_streamers : list loc;
  logs_file : option string
}.

(** Python exceptions that can leave the modelled methods. *)
Inductive exn :=
| SystemExit (code : Z)
| AttributeError (msg : string)
| TypeError (msg : string)
| IndexError (msg : string)
| StreamerDoesNotExistException
| WebDriverException (msg : string)
| PoolError (msg : string).

(** Observable actions, in program order. *)
Inductive event :=
| LogError (msg : string)
| LogStartSession (sid : string)
| AssignRunning (b : bool)
| AssignTwitchRunning (b : bool)
| Login
| SleepJitter
| SleepPoll
| SleepGrace
| GetChannelId (name : string)
| LogDoesNotExist (name : string)
| LoadChannelPointsContext (l : loc)
| CheckStreamerOnline (l : loc)
| BrowserInit
| ThreadStart
| PoolCreate
| Submit (t : PubsubTopic)
| BrowserQuit
| PoolEnd
| PrintLine (s : string)
| LogEndSession (sid : string)
| LogLogsFile (f : string)
| LogDuration (ms : Z)
| LogBetSettings (b : BetSettings)
| LogRecap (event_id recap : string)
| LogGained (s : Streamer) (delta : Z)
| LogHistory (s : Streamer)
| SysExit (code : Z).

(** The answers of the external collaborators (the [Twitch] API wrapper,
    the logger set-up, the browser driver and the pool). *)
Record Env := {
  (** [Twitch.get_channel_id]: [None] stands for
      [StreamerDoesNotExistException]. *)
  get_channel_id : string -> option Z;
  (** the balance [Twitch.load_channel_points_context] stores *)
  channel_points_context : Z -> Z;
  (** the flag [Twitch.check_streamer_online] stores *)
  streamer_online : Z -> bool;
  get_user_id : Z;
  get_auth_token : string;
  uuid4 : string;
  configure_loggers : string -> LoggerSettings -> option string;
  twitch_running_default : bool;
  (** milliseconds drawn by [random.uniform(0.3, 0.7)] *)
  jitter_ms : Z;
  (** the exception [browser.quit()] raises, if it fails *)
  quit_error : option exn;
  (** the exception [ws_pool.end()] raises, if it fails *)
  pool_end_error : option exn
}.

(** The whole program state: the miner object, the heap of [Streamer]
    objects, the wall clock (milliseconds) and the trace so far. *)
Record World := {
  self : Miner;
  heap : list Streamer;
  clock : Z;
  trace : list event
}.

(** ** Attribute assignment *)

Definition set_twitch (t : Twitch) (m : Miner) : Miner :=
  {| twitch := t; twitch_browser := twitch_browser m;
     follow_raid := follow_raid m; streamers := streamers m;
     events_predictions := events_predictions m;
     minute_watcher_thread := minute_watcher_thread m;
     ws_pool := ws_pool m; make_predictions := make_predictions m;
     browser_settings := browser_settings m; bet_settings := bet_settings m;
     session_id := session_id m; running := running m;
     start_datetime := start_datetime m;
     original_streamers := original_streamers m; logs_file := logs_file m |}.

Definition set_twitch_browser (b : option TwitchBrowser) (m : Miner) : Miner :=
  {| twitch := twitch m; twitch_browser := b;
     follow_raid := follow_raid m; streamers := streamers m;
     events_predictions := events_predictions m;
     minute_watcher_thread := minute_watcher_thread m;
     ws_pool := ws_pool m; make_predictions := make_predictions m;
     browser_settings := browser_settings m; bet_settings := bet_settings m;
     session_id := session_id m; running := running m;
     start_datetime := start_datetime m;
     original_streamers := original_streamers m; logs_file := logs_file m |}.

Definition set_streamers (l : list loc) (m : Miner) : Miner :=
  {| twitch := twitch m; twitch_browser := twitch_browser m;
     follow_raid := follow_raid m; streamers := l;
     events_predictions := events_predictions m;
     minute_watcher_thread := minute_watcher_thread m;
     ws_pool := ws_pool m; make_predictions := make_predictions m;
     browser_settings := browser_settings m; bet_settings := bet_settings m;
     session_id := session_id m; running := running m;
     start_datetime := start_datetime m;
     original_streamers := original_streamers m; logs_file := logs_file m |}.

Definition set_events_predictions (e : list (string * string)) (m : Miner) : Miner :=
  {| twitch := twitch m; twitch_browser := twitch_browser m;
     follow_raid := follow_raid m; streamers := streamers m;
     events_predictions := e;
     minute_watcher_thread := minute_watcher_thread m;
     ws_pool := ws_pool m; make_predictions := make_predictions m;
     browser_settings := browser_settings m; bet_settings := bet_settings m;
     session_id := session_id m; running := running m;
     start_datetime := start_datetime m;
     original_streamers := original_streamers m; logs_file := logs_file m |}.

Definition set_minute_watcher_thread (t : option Thread) (m : Miner) : Miner :=
  {| twitch := twitch m; twitch_browser := twitch_browser m;
     follow_raid := follow_raid m; streamers := streamers m;
     events_predictions := events_predictions m;
     minute_watcher_thread := t;
     ws_pool := ws_pool m; make_predictions := make_predictions m;
     browser_settings := browser_settings m; bet_settings := bet_settings m;
     session_id := session_id m; running := running m;
     start_datetime := start_datetime m;
     original_streamers := original_streamers m; logs_file := logs_file m |}.

Definition set_ws_pool (p : option WebSocketsPool) (m : Miner) : Miner :=
  {| twitch := twitch m; twitch_browser := twitch_browser m;
     follow_raid := follow_raid m; streamers := streamers m;
     events_predictions := events_predictions m;
     minute_watcher_thread := minute_watcher_thread m;
     ws_pool := p; make_predictions := make_predictions m;
     browser_settings := browser_settings m; bet_settings := bet_settings m;
     session_id := session_id m; running := running m;
     start_datetime := start_datetime m;
     original_streamers := original_streamers m; logs_file := logs_file m |}.

Definition set_running (b : bool) (m : Miner) : Miner :=
  {| twitch := twitch m; twitch_browser := twitch_browser m;
     follow_raid := follow_raid m; streamers := streamers m;
     events_predictions := events_predictions m;
     minute_watcher_thread := minute_watcher_thread m;
     ws_pool := ws_pool m; make_predictions := make_predictions m;
     browser_settings := browser_settings m; bet_settings := bet_settings m;
     session_id := session_id m; running := b;
     start_datetime := start_datetime m;
     original_streamers := original_streamers m; logs_file := logs_file m |}.

Definition set_start_datetime (t : option Z) (m : Miner) : Miner :=
  {| twitch := twitch m; twitch_browser := twitch_browser m;
     follow_raid := follow_raid m; streamers := streamers m;
     events_predictions := events_predictions m;
     minute_watcher_thread := minute_watcher_thread m;
     ws_pool := ws_pool m; make_predictions := make_predictions m;
     browser_settings := browser_settings m; bet_settings := bet_settings m;
     session_id := session_id m; running := running m;
     start_datetime := t;
     original_streamers := original_streamers m; logs_file := logs_file m |}.

Definition set_original_streamers (l : list loc) (m : Miner) : Miner :=
  {| twitch := twitch m; twitch_browser := twitch_browser m;
     follow_raid := follow_raid m; streamers := streamers m;
     events_predictions := events_predictions m;
     minute_watcher_thread := minute_watcher_thread m;
     ws_pool := ws_pool m; make_predictions := make_predictions m;
     browser_settings := browser_settings m; bet_settings := bet_settings m;
     session_id := session_id m; running := running m;
     start_datetime := start_datetime m;
     original_streamers := l; logs_file := logs_file m |}.

Definition on_self (f : Miner -> Miner) (w : World) : World :=
  {| self := f (self w); heap := heap w; clock := clock w; trace := trace w |}.

Definition on_heap (f : list Streamer -> list Streamer) (w : World) : World :=
  {| self := self w; heap := f (heap w); clock := clock w; trace := trace w |}.

Definition advance (ms : Z) (w : World) : World :=
  {| self := self w; heap := heap w; clock := clock w + ms; trace := trace w |}.

Definition record (e : event) (w : World) : World :=
  {| self := self w; heap := heap w; clock := clock w;
     trace := trace w ++ [e] |}.

(** ** The monad of the methods: state, exceptions, and a loop that may
    still be waiting when the observation ends *)

Inductive outcome (A : Type) :=
| Ret (a : A)
| Raise (e : exn)
| Blocked.
Arguments Ret {A} a.
Arguments Raise {A} e.
Arguments Blocked {A}.

Definition M (A : Type) : Type := World -> outcome A * World.

#[global] Instance M_ret : MRet M := fun A a w => (Ret a, w).

#[global] Instance M_bind : MBind M := fun A B f c w =>
  match c w with
  | (Ret a, w') => f a w'
  | (Raise e, w') => (Raise e, w')
  | (Blocked, w') => (Blocked, w')
  end.

Definition raise {A} (e : exn) : M A := fun w => (Raise e, w).
Definition gets {A} (f : World -> A) : M A := fun w => (Ret (f w), w).
Definition modify (f : World -> World) : M unit := fun w => (Ret tt, f w).
Definition emit (e : event) : M unit := modify (record e).
Definition assign (f : Miner -> Miner) : M unit := modify (on_self f).

(** [try: body except <catches>: handler] *)
Definition try_except {A} (body : M A) (catches : exn -> bool)
    (handler : M A) : M A := fun w =>
  match body w with
  | (Raise e, w') => if catches e then handler w' else (Raise e, w')
  | r => r
  end.

(** [for x in l: body] over the value the list has when the loop starts *)
Fixpoint for_each {A} (l : list A) (body : A -> M unit) : M unit :=
  match l with
  | [] => mret tt
  | x :: l' => body x ;; for_each l' body
  end.

Definition when (b : bool) (c : M unit) : M unit :=
  if b then c else mret tt.

Definition exec {A} (c : M A) (w : World) : World := snd (c w).
Definition result {A} (c : M A) (w : World) : outcome A := fst (c w).

(** ** Strings: [str.lower] and [str.strip] on ASCII text *)

Definition ascii_lower (c : ascii) : ascii :=
  let n := nat_of_ascii c in
  if (Nat.leb 65 n && Nat.leb n 90)%bool then ascii_of_nat (n + 32) else c.

Definition is_space (c : ascii) : bool :=
  let n := nat_of_ascii c in
  (Nat.eqb n 32 || (Nat.leb 9 n && Nat.leb n 13)
   || (Nat.leb 28 n && Nat.leb n 31))%bool.

Fixpoint lower (s : string) : string :=
  match s with
  | EmptyString => EmptyString
  | String c s' => String (ascii_lower c) (lower s')
  end.

Fixpoint lstrip (s : string) : string :=
  match s with
  | EmptyString => EmptyString
  | String c s' => if is_space c then lstrip s' else s
  end.

Fixpoint rstrip (s : string) : string :=
  match s with
  | EmptyString => EmptyString
  | String c s' =>
      match rstrip s' with
      | EmptyString => if is_space c then EmptyString else String c EmptyString
      | r => String c r
      end
  end.

Definition strip (s : string) : string := rstrip (lstrip s).

(** ** [copy.deepcopy] of a list of streamer objects

    Every object met for the first time is copied into a fresh location;
    the memo makes an object that occurs twice in the list be copied once,
    as [deepcopy] does.  A location outside the heap does not occur in
    states built by the methods below and is left as it is. *)

Fixpoint memo_find (memo : list (loc * loc)) (l : loc) : option loc :=
  match memo with
  | [] => None
  | (a, c) :: memo' => if Nat.eqb a l then Some c else memo_find memo' l
  end.

Fixpoint deepcopy_from (memo : list (loc * loc)) (h : list Streamer)
    (ls : list loc) : list loc * list Streamer :=
  match ls with
  | [] => ([], h)
  | l :: ls' =>
      match memo_find memo l with
      | Some c =>
          let '(cs, h') := deepcopy_from memo h ls' in (c :: cs, h')
      | None =>
          match h !! l with
          | Some s =>
              let c := length h in
              let '(cs, h') := deepcopy_from ((l, c) :: memo) (h ++ [s]) ls' in
              (c :: cs, h')
          | None =>
              let '(cs, h') := deepcopy_from memo h ls' in (l :: cs, h')
          end
      end
  end.

Definition deepcopy (h : list Streamer) (ls : list loc)
    : list loc * list Streamer :=
  deepcopy_from [] h ls.

(** ** What arrives while the session is waiting *)

(** Modelled from the spec: the handlers of the pool and the minute
    watcher (classes/WebSocketsPool.py, classes/Twitch.py) are not part
    of the sources.  By sections 3 and 4.2 of the specification they
    update the balance of a streamer and append a history entry
    (account-points), flip its online flag (channel-video) and record
    prediction events; the identity of a streamer is immutable for the
    session.  They reach the streamers through the list [run] hands
    them, that is [self.streamers], and the prediction events through
    [self.events_predictions]. *)
Inductive session_event :=
| PointsChanged (channel : Z) (balance : Z) (reason : string) (gained : Z)
| OnlineChanged (channel : Z) (online : bool)
| PredictionRecorded (event_id recap : string).

Definition on_channel (channel : Z) (f : Streamer -> Streamer)
    (s : Streamer) : Streamer :=
  if Z.eqb (channel_id s) channel then f s else s.

Definition update_live (channel : Z) (f : Streamer -> Streamer)
    (w : World) : World :=
  on_heap (fun h =>
    foldr (fun l h' => alter (on_channel channel f) l h') h
          (streamers (self w))) w.

Fixpoint dict_set (k v : string) (d : list (string * string))
    : list (string * string) :=
  match d with
  | [] => [(k, v)]
  | (k', v') :: d' =>
      if String.eqb k' k then (k, v) :: d' else (k', v') :: dict_set k v d'
  end.

Definition deliver_event (e : session_event) (w : World) : World :=
  match e with
  | PointsChanged c b reason g =>
      update_live c (fun s =>
        with_history (history s ++ [(reason, g)]) (with_channel_points b s)) w
  | OnlineChanged c b => update_live c (with_online b) w
  | PredictionRecorded id recap =>
      on_self (fun m =>
        set_events_predictions (dict_set id recap (events_predictions m)) m) w
  end.

Definition deliver (evs : list session_event) (w : World) : World :=
  foldl (fun w' e => deliver_event e w') w evs.

(** What happens during one [time.sleep(1.5)] of the main loop: events
    are handled by the background activities, and then either nothing
    else, or a signal runs the handler [end] on the main thread ([again]
    further signals arrive during its own final sleep), or another
    thread clears [running]. *)
Inductive tick_action :=
| Quiet
| Signal (again : nat)
| FlagCleared.

Record tick := {
  arrivals : list session_event;
  action : tick_action
}.

(** ** The methods of [TwitchChannelPointsMiner] *)

Section Methods.

Variable E : Env.

(** *** Calls into the collaborators *)

(** [time.sleep(random.uniform(0.3, 0.7))] *)
Definition sleep_jitter : M unit :=
  emit SleepJitter ;; modify (advance (jitter_ms E)).

(** [self.twitch.get_channel_id(name)] *)
Definition twitch_get_channel_id (name : string) : M Z :=
  emit (GetChannelId name) ;;
  match get_channel_id E name with
  | Some id => mret id
  | None => raise StreamerDoesNotExistException
  end.

(** Allocation of a new [Streamer] object. *)
Definition alloc (s : Streamer) : M loc := fun w =>
  (Ret (length (heap w)), on_heap (fun h => h ++ [s]) w).

(** [self.twitch.load_channel_points_context(streamer)] *)
Definition load_channel_points_context (l : loc) : M unit :=
  emit (LoadChannelPointsContext l) ;;
  modify (on_heap (alter (fun s =>
    with_channel_points (channel_points_context E (channel_id s)) s) l)).

(** [self.twitch.check_streamer_online(streamer)] *)
Definition check_streamer_online (l : loc) : M unit :=
  emit (CheckStreamerOnline l) ;;
  modify (on_heap (alter (fun s =>
    with_online (streamer_online E (channel_id s)) s) l)).

(** [self.twitch_browser.browser.quit()] *)
Definition browser_quit : M unit :=
  emit BrowserQuit ;;
  match quit_error E with
  | Some e => raise e
  | None => mret tt
  end.

(** [self.ws_pool.end()] on a pool that exists *)
Definition pool_end : M unit :=
  emit PoolEnd ;;
  match pool_end_error E with
  | Some e => raise e
  | None => mret tt
  end.

(** [l[i]] on a list of streamer references, then the object itself *)
Definition item (l : list loc) (i : nat) : M Streamer := fun w =>
  match l !! i with
  | Some r =>
      match heap w !! r with
      | Some s => (Ret s, w)
      | None => (Raise (AttributeError "dangling reference"), w)
      end
  | None => (Raise (IndexError "list index out of range"), w)
  end.

(** *** [__init__] (lines 35-66)

    The three [signal.signal] calls make [end] the handler of SIGINT,
    SIGSEGV and SIGTERM from here on. *)
Definition init (user : string) (make_predictions_ follow_raid_ : bool)
    (logger_settings : LoggerSettings) (browser_settings_ : BrowserSettings)
    (bet_settings_ : BetSettings) (now : Z) : World :=
  {| self :=
       {| twitch := {| tw_username := user;
                       tw_running := twitch_running_default E |};
          twitch_browser := None;
          follow_raid := follow_raid_;
          streamers := [];
          events_predictions := [];
          minute_watcher_thread := None;
          ws_pool := None;
          make_predictions := make_predictions_;
          browser_settings := browser_settings_;
          bet_settings := bet_settings_;
          session_id := uuid4 E;
          running := false;
          start_datetime := None;
          original_streamers := [];
          logs_file := configure_loggers E user logger_settings |};
     heap := [];
     clock := now;
     trace := [] |}.

(** *** [__print_report] (lines 169-201) *)
Definition print_report : M unit :=
  emit (PrintLine "\n") ;;
  m ← gets self ;
  emit (LogEndSession (session_id m)) ;;
  match logs_file m with
  | Some f => emit (LogLogsFile f)
  | None => mret tt
  end ;;
  now ← gets clock ;
  match start_datetime m with
  | Some t0 => emit (LogDuration (now - t0))
  | None =>
      raise (TypeError
        "unsupported operand type(s) for -: 'datetime.datetime' and 'NoneType'")
  end ;;
  when (make_predictions m)
    (emit (PrintLine "") ;;
     emit (LogBetSettings (bet_settings m)) ;;
     for_each (events_predictions m) (fun '(event_id, recap) =>
       emit (LogRecap event_id recap)) ;;
     emit (PrintLine "")) ;;
  for_each (seq 0 (length (streamers m))) (fun streamer_index =>
    live ← gets (fun w => streamers (self w)) ;
    s ← item live streamer_index ;
    orig ← gets (fun w => original_streamers (self w)) ;
    o ← item orig streamer_index ;
    emit (LogGained s (channel_points s - channel_points o)) ;;
    match history s with
    | [] => mret tt
    | _ => emit (LogHistory s)
    end).

(** *** [end] (lines 156-167)

    [interrupt] is what happens while line 165 sleeps: nothing, or a
    further signal, whose handler runs on the same thread before the
    sleep can resume. *)
Definition end_with (interrupt : M unit) : M unit :=
  m ← gets self ;
  match twitch_browser m with
  | Some _ => browser_quit
  | None => mret tt
  end ;;
  assign (set_running false) ;;
  emit (AssignRunning false) ;;
  assign (fun m =>
    set_twitch {| tw_username := tw_username (twitch m);
                  tw_running := false |} m) ;;
  emit (AssignTwitchRunning false) ;;
  pool ← gets (fun w => ws_pool (self w)) ;
  match pool with
  | Some _ => pool_end
  | None => raise (AttributeError "'NoneType' object has no attribute 'end'")
  end ;;
  print_report ;;
  emit SleepGrace ;;
  modify (advance 3500) ;;
  interrupt ;;
  emit (SysExit 0) ;;
  raise (SystemExit 0).

(** [again] counts the signals that arrive while an invocation is in its
    final sleep; each runs the handler once more. *)
Fixpoint end_ (again : nat) : M unit :=
  end_with match again with
           | O => mret tt
           | S k => end_ k
           end.

(** *** [run] (lines 71-154) *)

(** Lines 125-148: the topics to register. *)
Definition topics_of (m : Miner) : list PubsubTopic :=
  [UserTopic "community-points-user-v1" (get_user_id E)]
  ++ (if make_predictions m
      then [UserTopic "predictions-user-v1" (get_user_id E)] else [])
  ++ flat_map (fun streamer =>
       [StreamerTopic "video-playback-by-id" streamer]
       ++ (if follow_raid m then [StreamerTopic "raid" streamer] else [])
       ++ (if make_predictions m
           then [StreamerTopic "predictions-channel-v1" streamer] else []))
       (streamers m).

(** Lines 153-154: [while self.running: time.sleep(1.5)].  The schedule
    says what happens during each sleep; when it is used up and the flag
    is still set, the loop is still waiting. *)
Fixpoint wait_loop (sched : list tick) : M unit := fun w =>
  if running (self w) then
    match sched with
    | [] => (Blocked, w)
    | t :: sched' =>
        (emit SleepPoll ;;
         modify (advance 1500) ;;
         modify (deliver (arrivals t)) ;;
         match action t with
         | Quiet => mret tt
         | Signal again => end_ again
         | FlagCleared => assign (set_running false)
         end ;;
         wait_loop sched') w
    end
  else (Ret tt, w).

(** Lines 75-151: the [else] branch up to the waiting loop. *)
Definition start_session (names : list string) : M unit :=
  sid ← gets (fun w => session_id (self w)) ;
  emit (LogStartSession sid) ;;
  assign (set_running true) ;;
  emit (AssignRunning true) ;;
  now ← gets clock ;
  assign (set_start_datetime (Some now)) ;;
  emit Login ;;
  for_each names (fun streamer_username =>
    sleep_jitter ;;
    let _ := strip (lower streamer_username) in
    try_except
      (channel_id ← twitch_get_channel_id streamer_username ;
       streamer ← alloc (new_Streamer streamer_username channel_id) ;
       assign (fun m => set_streamers (streamers m ++ [streamer]) m))
      (fun e => match e with
                | StreamerDoesNotExistException => true
                | _ => false
                end)
      (emit (LogDoesNotExist streamer_username))) ;;
  live ← gets (fun w => streamers (self w)) ;
  for_each live (fun streamer =>
    sleep_jitter ;;
    load_channel_points_context streamer ;;
    check_streamer_online streamer) ;;
  modify (fun w =>
    let '(copies, h) := deepcopy (heap w) (streamers (self w)) in
    on_self (set_original_streamers copies) (on_heap (fun _ => h) w)) ;;
  m ← gets self ;
  when (make_predictions m)
    (assign (set_twitch_browser (Some
       {| tb_auth_token := get_auth_token E;
          tb_session_id := session_id m;
          tb_settings := browser_settings m |})) ;;
     emit BrowserInit) ;;
  assign (set_minute_watcher_thread
    (Some {| daemon := true; is_alive := true |})) ;;
  emit ThreadStart ;;
  m ← gets self ;
  assign (set_ws_pool (Some
    {| pool_browser := twitch_browser m;
       pool_bet_settings := bet_settings m |})) ;;
  emit PoolCreate ;;
  m ← gets self ;
  for_each (topics_of m) (fun topic => emit (Submit topic)).

Definition run (names : list string) (sched : list tick) : M unit :=
  m ← gets self ;
  if running m
  then emit (LogError "You can't start multiple session of this istance!")
  else start_session names ;; wait_loop sched.

(** *** [mine] (lines 68-69) *)
Definition mine (names : list string) (sched : list tick) : M unit :=
  run names sched.

End Methods.

(** ** The session in closed form

    The part of [run] before the waiting loop neither raises nor waits;
    its effect is the composition of the world transformers below, one
    per group of source lines ([start_session_eq]). *)

Definition record_all (evs : list event) (w : World) : World :=
  {| self := self w; heap := heap w; clock := clock w;
     trace := trace w ++ evs |}.

(** The events a computation adds to the trace. *)
Definition events_of {A} (c : M A) (w : World) : list event :=
  drop (length (trace w)) (trace (exec c w)).

Section Phases.

Variable E : Env.

(** Lines 75-81. *)
Definition begin (w : World) : World :=
  record Login
    (on_self (set_start_datetime (Some (clock w)))
      (record (AssignRunning true)
        (on_self (set_running true)
          (record (LogStartSession (session_id (self w))) w)))).

(** Lines 84-94, one configured name. *)
Definition resolve_one (name : string) (w : World) : World :=
  let w1 := record (GetChannelId name)
              (advance (jitter_ms E) (record SleepJitter w)) in
  match get_channel_id E name with
  | Some id =>
      on_self (fun m => set_streamers (streamers m ++ [length (heap w1)]) m)
        (on_heap (fun h => h ++ [new_Streamer name id]) w1)
  | None => record (LogDoesNotExist name) w1
  end.

Definition resolve (names : list string) (w : World) : World :=
  foldl (fun w' n => resolve_one n w') w names.

(** Lines 97-99 on the heap, one streamer. *)
Definition refresh (l : loc) (h : list Streamer) : list Streamer :=
  alter (fun s => with_online (streamer_online E (channel_id s)) s) l
    (alter (fun s =>
       with_channel_points (channel_points_context E (channel_id s)) s) l h).

Definition load_one (l : loc) (w : World) : World :=
  on_heap (alter (fun s => with_online (streamer_online E (channel_id s)) s) l)
    (record (CheckStreamerOnline l)
      (on_heap (alter (fun s =>
          with_channel_points (channel_points_context E (channel_id s)) s) l)
        (record (LoadChannelPointsContext l)
          (advance (jitter_ms E) (record SleepJitter w))))).

Definition load (ls : list loc) (w : World) : World :=
  foldl (fun w' l => load_one l w') w ls.

(** Line 100. *)
Definition snapshot (w : World) : World :=
  let '(copies, h) := deepcopy (heap w) (streamers (self w)) in
  on_self (set_original_streamers copies) (on_heap (fun _ => h) w).

(** The world when line 100 has run. *)
Definition after_snapshot (names : list string) (w : World) : World :=
  let w1 := resolve names (begin w) in
  snapshot (load (streamers (self w1)) w1).

(** Lines 102-151. *)
Definition activities (w : World) : World :=
  let w1 :=
    if make_predictions (self w)
    then record BrowserInit
           (on_self (set_twitch_browser (Some
              {| tb_auth_token := get_auth_token E;
                 tb_session_id := session_id (self w);
                 tb_settings := browser_settings (self w) |})) w)
    else w in
  let w2 := record ThreadStart
              (on_self (set_minute_watcher_thread
                 (Some {| daemon := true; is_alive := true |})) w1) in
  let w3 := record PoolCreate
              (on_self (set_ws_pool (Some
                 {| pool_browser := twitch_browser (self w2);
                    pool_bet_settings := bet_settings (self w2) |})) w2) in
  record_all (map Submit (topics_of E (self w3))) w3.

Definition started (names : list string) (w : World) : World :=
  activities (after_snapshot names w).

(** The events of the two loops over names and streamers. *)
Definition resolve_events (name : string) : list event :=
  [SleepJitter; GetChannelId name]
  ++ match get_channel_id E name with
     | Some _ => []
     | None => [LogDoesNotExist name]
     end.

Definition load_events (l : loc) : list event :=
  [SleepJitter; LoadChannelPointsContext l; CheckStreamerOnline l].

(** The configured names that resolve, with the objects built for them. *)
Definition resolvable (name : string) : bool :=
  match get_channel_id E name with Some _ => true | None => false end.

Definition resolved_streamers (names : list string) : list Streamer :=
  omap (fun n => new_Streamer n <$> get_channel_id E n) names.

(** The registry after the resolution loop. *)
Definition registry_after (names : list string) (w : World) : list loc :=
  streamers (self w)
  ++ seq (length (heap w)) (length (resolved_streamers names)).

(** What [run] adds to the trace before it starts waiting. *)
Definition session_events (names : list string) (w : World) : list event :=
  [LogStartSession (session_id (self w)); AssignRunning true; Login]
  ++ flat_map resolve_events names
  ++ flat_map load_events (registry_after names w)
  ++ (if make_predictions (self w) then [BrowserInit] else [])
  ++ [ThreadStart; PoolCreate]
  ++ map Submit (topics_of E (self (started names w))).

End Phases.

(** ** The report in closed form *)

Definition gained_lines (h : list Streamer) (lo : loc * loc) : list event :=
  match h !! lo.1, h !! lo.2 with
  | Some s, Some o =>
      LogGained s (channel_points s - channel_points o)
      :: match history s with [] => [] | _ => [LogHistory s] end
  | _, _ => []
  end.

Definition report_lines (w : World) (t0 : Z) : list event :=
  let m := self w in
  [PrintLine "\n"; LogEndSession (session_id m)]
  ++ match logs_file m with Some f => [LogLogsFile f] | None => [] end
  ++ [LogDuration (clock w - t0)]
  ++ (if make_predictions m
      then [PrintLine ""; LogBetSettings (bet_settings m)]
           ++ map (fun '(event_id, recap) => LogRecap event_id recap)
                (events_predictions m)
           ++ [PrintLine ""]
      else [])
  ++ flat_map (gained_lines (heap w))
       (zip (streamers m) (original_streamers m)).

(** The streamer and the difference that one "Gained" line reports. *)
Definition gain_entry (h : list Streamer) (lo : loc * loc)
    : option (Streamer * Z) :=
  match h !! lo.1, h !! lo.2 with
  | Some s, Some o => Some (s, channel_points s - channel_points o)
  | _, _ => None
  end.

(** ** The shutdown in closed form *)

(** Line 161: both flags cleared. *)
Definition stopped (w : World) : World :=
  on_self (fun m =>
    set_twitch {| tw_username := tw_username (twitch (set_running false m));
                  tw_running := false |} (set_running false m)) w.

(** Lines 158-162 in the trace. *)
Definition release_events (w : World) : list event :=
  match twitch_browser (self w) with
  | Some _ => [BrowserQuit]
  | None => []
  end
  ++ [AssignRunning false; AssignTwitchRunning false; PoolEnd].

(** Lines 158-165: one pass of [end] up to the end of its sleep. *)
Definition shutdown_round (t0 : Z) (w : World) : World :=
  advance 3500
    (record_all (release_events w ++ report_lines w t0 ++ [SleepGrace])
       (stopped w)).

Fixpoint rounds (n : nat) (t0 : Z) (w : World) : World :=
  match n with
  | O => w
  | S k => rounds k t0 (shutdown_round t0 w)
  end.

(** [end] with [again] further signals during the final sleep: the
    handler runs [S again] times, the innermost one reaches line 167. *)
Definition shutdown (again : nat) (t0 : Z) (w : World) : World :=
  record (SysExit 0) (rounds (S again) t0 w).

(** ** The waiting loop in closed form *)

(** One [time.sleep(1.5)] during which only events arrive. *)
Definition poll (t : tick) (w : World) : World :=
  deliver (arrivals t) (advance 1500 (record SleepPoll w)).

Definition idle (ticks : list tick) (w : World) : World :=
  foldl (fun w' t => poll t w') w ticks.

Definition quiet (t : tick) : Prop := action t = Quiet.

(** ** What can happen between the snapshot and the report

    After line 100 the program assigns the attributes below, calls
    collaborators and logs, sleeps, and the background activities handle
    events; nothing assigns [streamers] or [original_streamers]. *)
Inductive late_assignment : (Miner -> Miner) -> Prop :=
| late_twitch_browser b : late_assignment (set_twitch_browser b)
| late_minute_watcher_thread t : late_assignment (set_minute_watcher_thread t)
| late_ws_pool p : late_assignment (set_ws_pool p)
| late_running b : late_assignment (set_running b)
| late_twitch t : late_assignment (set_twitch t).

Inductive session_step : World -> World -> Prop :=
| step_event e w : session_step w (deliver_event e w)
| step_record e w : session_step w (record e w)
| step_sleep ms w : session_step w (advance ms w)
| step_assign f w : late_assignment f -> session_step w (on_self f w).

(** ** Observations on states and traces *)

(** What section 3 of the specification calls the identity of a
    streamer. *)
Definition identity (s : Streamer) : string * Z :=
  (username s, channel_id s).

(** The objects in the registry, in order. *)
Definition live_streamers (w : World) : list Streamer :=
  omap (fun l => heap w !! l) (streamers (self w)).

(** The balance stored in the object at a location. *)
Definition balance (w : World) (l : loc) : Z :=
  from_option channel_points 0 (heap w !! l).

(** Every reference in the registry points into the heap. *)
Definition valid_refs (w : World) : Prop :=
  Forall (fun l => is_Some (heap w !! l)) (streamers (self w)).

(** The snapshot has one entry per live streamer, at the same index, with
    the same identity. *)
Definition paired (w : World) : Prop :=
  Forall2 (fun l o => exists s s0,
      heap w !! l = Some s /\ heap w !! o = Some s0 /\
      username s = username s0 /\ channel_id s = channel_id s0)
    (streamers (self w)) (original_streamers (self w)).

(** No snapshot object is a registry object. *)
Definition separate (w : World) : Prop :=
  forall o, o ∈ original_streamers (self w) -> o ∉ streamers (self w).

Definition submitted (tr : list event) : list PubsubTopic :=
  omap (fun e => match e with Submit t => Some t | _ => None end) tr.

Definition channel_id_calls (tr : list event) : list string :=
  omap (fun e => match e with GetChannelId n => Some n | _ => None end) tr.

Definition not_found_logs (tr : list event) : list string :=
  omap (fun e => match e with LogDoesNotExist n => Some n | _ => None end) tr.

Definition gained_of (tr : list event) : list (Streamer * Z) :=
  omap (fun e => match e with LogGained s d => Some (s, d) | _ => None end) tr.

Definition is_quit (e : event) : bool :=
  match e with BrowserQuit => true | _ => false end.

Definition is_flag_cleared (e : event) : bool :=
  match e with AssignRunning false => true | _ => false end.

Definition is_pool_end (e : event) : bool :=
  match e with PoolEnd => true | _ => false end.

(** The report starts with its "End session" line. *)
Definition is_report (e : event) : bool :=
  match e with LogEndSession _ => true | _ => false end.

Definition count_where (p : event -> bool) (tr : list event) : nat :=
  length (List.filter p tr).

Fixpoint first_index (p : event -> bool) (tr : list event) : option nat :=
  match tr with
  | [] => None
  | e :: tr' => if p e then Some O else S <$> first_index p tr'
  end.

(** The first [p] event comes before the first [q] event. *)
Definition precedes (p q : event -> bool) (tr : list event) : Prop :=
  exists a b,
    first_index p tr = Some a /\ first_index q tr = Some b /\ (a < b)%nat.

(** The order of the shutdown steps as the specification lists them:
    flag, browser, pool, report. *)
Definition order_of_spec (tr : list event) : Prop :=
  precedes is_flag_cleared is_quit tr
  /\ precedes is_quit is_pool_end tr
  /\ precedes is_pool_end is_report tr.

(** The order in which [end] performs them: browser, flag, pool, report. *)
Definition order_of_end (tr : list event) : Prop :=
  precedes is_quit is_flag_cleared tr
  /\ precedes is_flag_cleared is_pool_end tr
  /\ precedes is_pool_end is_report tr.

(** A miner on which [run] has got as far as its waiting loop. *)
Definition ready (w : World) : Prop :=
  is_Some (ws_pool (self w)) /\ is_Some (start_datetime (self w)) /\
  paired w.

(** ** Further observations *)

(** Lines 98-99 on one streamer object: the balance and the online flag
    the collaborator stores for its channel. *)
Definition refreshed (E : Env) (s : Streamer) : Streamer :=
  with_online (streamer_online E (channel_id s))
    (with_channel_points (channel_points_context E (channel_id s)) s).

(** The objects the snapshot refers to, in order. *)
Definition snapshot_streamers (w : World) : list Streamer :=
  omap (fun o => heap w !! o) (original_streamers (self w)).

Definition recaps_of (tr : list event) : list (string * string) :=
  omap (fun e => match e with
                 | LogRecap event_id recap => Some (event_id, recap)
                 | _ => None
                 end) tr.

Definition histories_of (tr : list event) : list Streamer :=
  omap (fun e => match e with LogHistory s => Some s | _ => None end) tr.

Definition bet_settings_of (tr : list event) : list BetSettings :=
  omap (fun e => match e with LogBetSettings b => Some b | _ => None end) tr.

Definition has_history (s : Streamer) : bool :=
  match history s with [] => false | _ => true end.

(** The number of topics lines 125-148 build for a registry of [n]
    streamers. *)
Definition topic_count (m : Miner) (n : nat) : nat :=
  (1 + Nat.b2n (make_predictions m)
   + n * (1 + Nat.b2n (follow_raid m) + Nat.b2n (make_predictions m)))%nat.

(** ** Sample data: one account, two known channels *)

Definition demo_env : Env :=
  {| get_channel_id := fun n =>
       if String.eqb n "alice" then Some 123
       else if String.eqb n "Alice " then Some 123
       else if String.eqb n "bob" then Some 456
       else None;
     channel_points_context := fun id => if Z.eqb id 123 then 500 else 70;
     streamer_online := fun id => Z.eqb id 123;
     get_user_id := 999;
     get_auth_token := "token";
     uuid4 := "session-1";
     configure_loggers := fun _ _ => Some "logs/me.log";
     twitch_running_default := true;
     jitter_ms := 500;
     quit_error := None;
     pool_end_error := None |}.

(** The same collaborators, with a browser whose [quit] fails. *)
Definition broken_quit_env : Env :=
  {| get_channel_id := get_channel_id demo_env;
     channel_points_context := channel_points_context demo_env;
     streamer_online := streamer_online demo_env;
     get_user_id := 999;
     get_auth_token := "token";
     uuid4 := "session-1";
     configure_loggers := fun _ _ => Some "logs/me.log";
     twitch_running_default := true;
     jitter_ms := 500;
     quit_error := Some (WebDriverException "chrome not reachable");
     pool_end_error := None |}.

(** A miner straight out of [__init__], betting and raid-following on. *)
Definition fresh : World := init demo_env "me" true true "" "" "bets" 1000.

(** The same miner once [run] waits in its loop. *)
Definition demo_names : list string := ["alice"; "ghost"; "bob"].

Definition waiting : World := exec (start_session demo_env demo_names) fresh.

(** A miner between lines 110 and 118 of [run]: the browser exists, the
    pool does not yet. *)
Definition browser_only : World :=
  on_self (set_twitch_browser (Some
    {| tb_auth_token := "token"; tb_session_id := "session-1";
       tb_settings := "" |})) fresh.

(** A miner with betting and raid-following switched off. *)
Definition plain : World := init demo_env "me" false false "" "" "bets" 1000.

Definition quiet_tick : tick := {| arrivals := []; action := Quiet |}.

Definition signal_tick : tick := {| arrivals := []; action := Signal 0 |}.

Definition flag_tick : tick := {| arrivals := []; action := FlagCleared |}.



(** The world after one balance change for channel 123 has arrived. *)
Definition after_points : World :=
  deliver [PointsChanged 123 540 "WATCH" 40] waiting.

Definition points_tick : tick :=
  {| arrivals := [PointsChanged 123 540 "WATCH" 40]; action := Quiet |}.

(** ** Basic facts about the monad and the world transformers *)

Ltac unfold_monad :=
  unfold mbind, M_bind, mret, M_ret, emit, assign, modify, gets, raise,
    when, exec, result in *.

Lemma bind_ret {A B} (c : M A) (f : A -> M B) (w w' : World) (a : A) :
  c w = (Ret a, w') -> (c ≫= f) w = f a w'.
Proof. intros H. unfold mbind, M_bind. by rewrite H. Qed.

Lemma bind_raise {A B} (c : M A) (f : A -> M B) (w w' : World) (e : exn) :
  c w = (Raise e, w') -> (c ≫= f) w = (Raise e, w').
Proof. intros H. unfold mbind, M_bind. by rewrite H. Qed.

Lemma record_all_nil w : record_all [] w = w.
Proof. destruct w; unfold record_all; simpl. by rewrite app_nil_r. Qed.

Lemma record_all_app evs1 evs2 w :
  record_all evs2 (record_all evs1 w) = record_all (evs1 ++ evs2) w.
Proof. unfold record_all; simpl. by rewrite app_assoc. Qed.

Lemma record_record_all e w : record e w = record_all [e] w.
Proof. reflexivity. Qed.

Lemma for_each_pure {A} (body : A -> M unit) (f : A -> World -> World)
    (l : list A) (w : World) :
  (forall x w', body x w' = (Ret tt, f x w')) ->
  for_each l body w = (Ret tt, foldl (fun w' x => f x w') w l).
Proof.
  intros Hbody. revert w.
  induction l as [|x l IH]; intros w; simpl; [done|].
  unfold mbind, M_bind. by rewrite Hbody, IH.
Qed.

Lemma foldl_record {A} (g : A -> event) (l : list A) (w : World) :
  foldl (fun w' x => record (g x) w') w l = record_all (map g l) w.
Proof.
  revert w. induction l as [|x l IH]; intros w; simpl.
  - by rewrite record_all_nil.
  - rewrite IH, record_record_all, record_all_app. done.
Qed.

Lemma events_of_app {A} (c : M A) (w : World) (evs : list event) :
  trace (exec c w) = trace w ++ evs -> events_of c w = evs.
Proof. intros H. unfold events_of. rewrite H. apply drop_app_length. Qed.

Lemma when_pure (b : bool) (c : M unit) (w : World) :
  result c w = Ret tt ->
  when b c w = (Ret tt, if b then exec c w else w).
Proof.
  unfold result, exec. intros H. destruct b; simpl; [|reflexivity].
  destruct (c w) as [o w']. simpl in *. by subst.
Qed.

(** Equal worlds up to the association of the trace. *)
Ltac trace_eq :=
  unfold mret, M_ret, emit, modify, record, record_all; simpl;
  repeat (progress (rewrite <- ?app_assoc; simpl));
  rewrite ?app_nil_r; reflexivity.

(** One primitive step of a sequence. *)
Ltac step := erewrite bind_ret by reflexivity.

Section Session.

Variable E : Env.

Lemma resolve_loop (names : list string) (w : World) :
  for_each names (fun streamer_username =>
    sleep_jitter E ;;
    let _ := strip (lower streamer_username) in
    try_except
      (channel_id ← twitch_get_channel_id E streamer_username ;
       streamer ← alloc (new_Streamer streamer_username channel_id) ;
       assign (fun m => set_streamers (streamers m ++ [streamer]) m))
      (fun e => match e with
                | StreamerDoesNotExistException => true
                | _ => false
                end)
      (emit (LogDoesNotExist streamer_username))) w
  = (Ret tt, resolve E names w).
Proof.
  apply (for_each_pure _ (resolve_one E)).
  intros n w'. unfold sleep_jitter, try_except, twitch_get_channel_id,
    resolve_one, alloc. unfold_monad. simpl.
  destruct (get_channel_id E n); reflexivity.
Qed.

Lemma load_loop (ls : list loc) (w : World) :
  for_each ls (fun streamer =>
    sleep_jitter E ;;
    load_channel_points_context E streamer ;;
    check_streamer_online E streamer) w
  = (Ret tt, load E ls w).
Proof. apply (for_each_pure _ (load_one E)). intros; reflexivity. Qed.

Lemma submit_loop (ts : list PubsubTopic) (w : World) :
  for_each ts (fun topic => emit (Submit topic)) w
  = (Ret tt, record_all (map Submit ts) w).
Proof.
  rewrite (for_each_pure _ (fun t => record (Submit t)))
    by (intros; reflexivity).
  by rewrite foldl_record.
Qed.

(** [run] up to its loop is the closed form. *)
Lemma start_session_eq (names : list string) (w : World) :
  start_session E names w = (Ret tt, started E names w).
Proof.
  unfold start_session.
  do 7 step.
  erewrite bind_ret by apply resolve_loop.
  step.
  erewrite bind_ret by apply load_loop.
  step.
  unfold started.
  match goal with
  | |- mbind ?f ?c ?W = _ =>
      change (mbind f c (after_snapshot E names w)
              = (Ret tt, activities E (after_snapshot E names w)))
  end.
  generalize (after_snapshot E names w). intros W.
  step. unfold activities.
  destruct (make_predictions (self W)) eqn:Hmp;
    do 7 step; rewrite submit_loop; reflexivity.
Qed.

(** *** The phases, field by field *)

Lemma begin_spec (w : World) :
  self (begin w)
  = set_start_datetime (Some (clock w)) (set_running true (self w))
  /\ heap (begin w) = heap w
  /\ trace (begin w)
     = trace w ++ [LogStartSession (session_id (self w));
                   AssignRunning true; Login].
Proof.
  unfold begin; simpl. repeat split.
  by rewrite <- !app_assoc.
Qed.

Lemma resolved_streamers_cons (n : string) (names : list string) :
  resolved_streamers E (n :: names)
  = match get_channel_id E n with
    | Some id => new_Streamer n id :: resolved_streamers E names
    | None => resolved_streamers E names
    end.
Proof.
  unfold resolved_streamers; simpl. by destruct (get_channel_id E n).
Qed.

Lemma resolve_spec (names : list string) (w : World) :
  self (resolve E names w)
  = set_streamers
      (streamers (self w)
       ++ seq (length (heap w)) (length (resolved_streamers E names)))
      (self w)
  /\ heap (resolve E names w) = heap w ++ resolved_streamers E names
  /\ trace (resolve E names w)
     = trace w ++ flat_map (resolve_events E) names.
Proof.
  revert w. induction names as [|n names IH]; intros w.
  - simpl. rewrite !app_nil_r. by destruct w as [[] ? ? ?].
  - change (resolve E (n :: names) w)
      with (resolve E names (resolve_one E n w)).
    destruct (IH (resolve_one E n w)) as (Hs & Hh & Ht).
    rewrite Hs, Hh, Ht, resolved_streamers_cons.
    unfold resolve_one, resolve_events.
    destruct (get_channel_id E n) as [id|] eqn:Hn; simpl; rewrite ?Hn;
      repeat split.
    + unfold set_streamers; simpl.
      by rewrite length_app, Nat.add_1_r, <- app_assoc.
    + by rewrite <- app_assoc.
    + by rewrite <- !app_assoc.
    + by rewrite <- !app_assoc.
Qed.

Lemma load_spec (ls : list loc) (w : World) :
  self (load E ls w) = self w
  /\ heap (load E ls w) = foldl (fun h l => refresh E l h) (heap w) ls
  /\ trace (load E ls w) = trace w ++ flat_map load_events ls.
Proof.
  revert w. induction ls as [|l ls IH]; intros w.
  - simpl. by rewrite app_nil_r.
  - change (load E (l :: ls) w) with (load E ls (load_one E l w)).
    destruct (IH (load_one E l w)) as (Hs & Hh & Ht).
    rewrite Hs, Hh, Ht. simpl. repeat split.
    by rewrite <- !app_assoc.
Qed.

Lemma snapshot_spec (w : World) :
  self (snapshot w)
  = set_original_streamers (deepcopy (heap w) (streamers (self w))).1 (self w)
  /\ heap (snapshot w) = (deepcopy (heap w) (streamers (self w))).2
  /\ trace (snapshot w) = trace w.
Proof.
  unfold snapshot. by destruct (deepcopy _ _) as [cs h].
Qed.

Lemma activities_spec (w : World) :
  streamers (self (activities E w)) = streamers (self w)
  /\ original_streamers (self (activities E w)) = original_streamers (self w)
  /\ running (self (activities E w)) = running (self w)
  /\ start_datetime (self (activities E w)) = start_datetime (self w)
  /\ make_predictions (self (activities E w)) = make_predictions (self w)
  /\ follow_raid (self (activities E w)) = follow_raid (self w)
  /\ is_Some (ws_pool (self (activities E w)))
  /\ heap (activities E w) = heap w
  /\ trace (activities E w)
     = trace w
       ++ (if make_predictions (self w) then [BrowserInit] else [])
       ++ [ThreadStart; PoolCreate]
       ++ map Submit (topics_of E (self (activities E w))).
Proof.
  unfold activities.
  destruct (make_predictions (self w)) eqn:Hmp; simpl;
    rewrite ?Hmp; repeat split; eauto; by rewrite <- !app_assoc.
Qed.

(** *** The heap: identities and copies *)

Lemma alter_identity (f : Streamer -> Streamer) (l : loc)
    (h : list Streamer) :
  (forall s, identity (f s) = identity s) ->
  identity <$> alter f l h = identity <$> h.
Proof.
  intros Hf. revert l.
  induction h as [|s h IH]; intros [|l]; simpl; try done.
  - by rewrite Hf.
  - f_equal. apply IH.
Qed.

Lemma refresh_identity (l : loc) (h : list Streamer) :
  identity <$> refresh E l h = identity <$> h.
Proof. unfold refresh. by rewrite !alter_identity. Qed.

Lemma foldl_refresh_identity (ls : list loc) (h : list Streamer) :
  identity <$> foldl (fun h' l => refresh E l h') h ls = identity <$> h.
Proof.
  revert h. induction ls as [|l ls IH]; intros h; simpl; [done|].
  by rewrite IH, refresh_identity.
Qed.

Lemma identity_length (h h' : list Streamer) :
  identity <$> h' = identity <$> h -> length h' = length h.
Proof.
  intros H. rewrite <- (length_fmap identity h'), H. apply length_fmap.
Qed.

Lemma identity_lookup (h h' : list Streamer) (l : loc) (s : Streamer) :
  identity <$> h' = identity <$> h ->
  h !! l = Some s ->
  exists s', h' !! l = Some s' /\ identity s' = identity s.
Proof.
  intros H Hl.
  assert ((identity <$> h') !! l = Some (identity s)) as Hl'.
  { rewrite H, list_lookup_fmap, Hl. done. }
  rewrite list_lookup_fmap in Hl'.
  destruct (h' !! l) as [s'|]; simpl in Hl'; [|done].
  exists s'. split; congruence.
Qed.

(** The copies lie above the [N] objects that existed before, and each
    holds what the object it was copied from holds. *)
Lemma deepcopy_from_spec (N : nat) (ls : list loc) :
  forall memo h cs h',
    (N <= length h)%nat ->
    Forall (fun l => (l < N)%nat) ls ->
    (forall a c, memo_find memo a = Some c ->
       (N <= c)%nat /\ is_Some (h !! c) /\ h !! c = h !! a) ->
    deepcopy_from memo h ls = (cs, h') ->
    (exists ext, h' = h ++ ext) /\
    Forall2 (fun l c =>
      (N <= c)%nat /\ is_Some (h' !! c) /\ h' !! c = h' !! l) ls cs.
Proof.
  induction ls as [|l ls IH]; intros memo h cs h' HN Hls Hmemo Hcopy.
  - simpl in Hcopy. inversion Hcopy; subst.
    split; [exists []; by rewrite app_nil_r | constructor].
  - inversion Hls as [|? ? Hl Hls']; subst.
    simpl in Hcopy.
    destruct (memo_find memo l) as [c|] eqn:Hfind.
    + destruct (deepcopy_from memo h ls) as [cs0 h0] eqn:Hrec.
      inversion Hcopy; subst.
      destruct (IH _ _ _ _ HN Hls' Hmemo Hrec) as [[ext ->] Hall].
      split; [by exists ext|]. constructor; [|done].
      destruct (Hmemo _ _ Hfind) as (Hc & [s Hs] & Heq).
      split; [done|].
      rewrite (lookup_app_l_Some _ _ _ _ Hs).
      split; [by eexists|].
      rewrite Heq in Hs. by rewrite (lookup_app_l_Some _ _ _ _ Hs).
    + destruct (h !! l) as [s|] eqn:Hhl.
      2:{ apply lookup_ge_None in Hhl. lia. }
      destruct (deepcopy_from ((l, length h) :: memo) (h ++ [s]) ls)
        as [cs0 h0] eqn:Hrec.
      inversion Hcopy; subst.
      assert (Hnew : (h ++ [s]) !! length h = Some s).
      { rewrite lookup_app_r by lia. by rewrite Nat.sub_diag. }
      destruct (IH ((l, length h) :: memo) (h ++ [s]) cs0 h') as [[ext ->] Hall].
      * rewrite length_app. lia.
      * done.
      * intros a c. simpl.
        destruct (Nat.eqb l a) eqn:Hla.
        -- apply Nat.eqb_eq in Hla. subst a.
           intros [= <-]. split; [done|].
           rewrite Hnew, (lookup_app_l_Some _ _ _ _ Hhl). eauto.
        -- intros Hf. destruct (Hmemo _ _ Hf) as (Hc & [s' Hs'] & Heq).
           split; [done|].
           rewrite (lookup_app_l_Some _ _ _ _ Hs').
           split; [by eexists|].
           rewrite Heq in Hs'. by rewrite (lookup_app_l_Some _ _ _ _ Hs').
      * done.
      * split; [exists ([s] ++ ext); by rewrite app_assoc|].
        constructor; [|done].
        split; [done|].
        rewrite (lookup_app_l_Some _ _ _ _ Hnew).
        split; [by eexists|].
        by rewrite (lookup_app_l_Some _ _ _ _
             (lookup_app_l_Some _ _ _ _ Hhl)).
Qed.

(** *** What arrives during the session *)

Lemma on_channel_identity (c : Z) (f : Streamer -> Streamer) :
  (forall s, identity (f s) = identity s) ->
  forall s, identity (on_channel c f s) = identity s.
Proof.
  intros Hf s. unfold on_channel. by destruct (channel_id s =? c).
Qed.

Lemma update_live_spec (c : Z) (f : Streamer -> Streamer) (w : World) :
  (forall s, identity (f s) = identity s) ->
  self (update_live c f w) = self w
  /\ clock (update_live c f w) = clock w
  /\ trace (update_live c f w) = trace w
  /\ identity <$> heap (update_live c f w) = identity <$> heap w
  /\ (forall o, o ∉ streamers (self w) ->
        heap (update_live c f w) !! o = heap w !! o).
Proof.
  intros Hf. unfold update_live; simpl. repeat split.
  - induction (streamers (self w)) as [|l ls IH]; simpl; [done|].
    rewrite alter_identity; [done|]. by apply on_channel_identity.
  - intros o Ho.
    induction (streamers (self w)) as [|l ls IH]; simpl; [done|].
    apply not_elem_of_cons in Ho as [Hne Ho].
    rewrite list_lookup_alter_ne by done. by apply IH.
Qed.

Lemma deliver_event_spec (e : session_event) (w : World) :
  streamers (self (deliver_event e w)) = streamers (self w)
  /\ original_streamers (self (deliver_event e w))
     = original_streamers (self w)
  /\ ws_pool (self (deliver_event e w)) = ws_pool (self w)
  /\ start_datetime (self (deliver_event e w)) = start_datetime (self w)
  /\ running (self (deliver_event e w)) = running (self w)
  /\ clock (deliver_event e w) = clock w
  /\ trace (deliver_event e w) = trace w
  /\ identity <$> heap (deliver_event e w) = identity <$> heap w
  /\ (forall o, o ∉ streamers (self w) ->
        heap (deliver_event e w) !! o = heap w !! o).
Proof.
  destruct e as [c b reason g|c b|id recap]; unfold deliver_event.
  - destruct (update_live_spec c (fun s =>
      with_history (history s ++ [(reason, g)]) (with_channel_points b s)) w)
      as (-> & -> & -> & Hid & Hother); [done|].
    by repeat split.
  - destruct (update_live_spec c (with_online b) w)
      as (-> & -> & -> & Hid & Hother); [done|].
    by repeat split.
  - by repeat split.
Qed.

Lemma deliver_spec (evs : list session_event) (w : World) :
  streamers (self (deliver evs w)) = streamers (self w)
  /\ original_streamers (self (deliver evs w)) = original_streamers (self w)
  /\ ws_pool (self (deliver evs w)) = ws_pool (self w)
  /\ start_datetime (self (deliver evs w)) = start_datetime (self w)
  /\ running (self (deliver evs w)) = running (self w)
  /\ clock (deliver evs w) = clock w
  /\ trace (deliver evs w) = trace w
  /\ identity <$> heap (deliver evs w) = identity <$> heap w
  /\ (forall o, o ∉ streamers (self w) ->
        heap (deliver evs w) !! o = heap w !! o).
Proof.
  revert w. induction evs as [|e evs IH]; intros w; [by repeat split|].
  change (deliver (e :: evs) w) with (deliver evs (deliver_event e w)).
  destruct (IH (deliver_event e w))
    as (-> & -> & -> & -> & -> & -> & -> & -> & Hother).
  destruct (deliver_event_spec e w)
    as (Hs & -> & -> & -> & -> & -> & -> & -> & Hother').
  repeat split; try done.
  intros o Ho. rewrite Hother by (by rewrite Hs). by apply Hother'.
Qed.

(** *** The pairing of registry and snapshot *)

Lemma paired_ext (w w' : World) :
  streamers (self w') = streamers (self w) ->
  original_streamers (self w') = original_streamers (self w) ->
  identity <$> heap w' = identity <$> heap w ->
  paired w -> paired w'.
Proof.
  unfold paired. intros -> -> Hid Hp.
  eapply Forall2_impl; [exact Hp|].
  intros l o (s & s0 & Hl & Ho & Hu & Hc).
  destruct (identity_lookup _ _ _ _ Hid Hl) as (s' & Hl' & Hs').
  destruct (identity_lookup _ _ _ _ Hid Ho) as (s0' & Ho' & Hs0').
  exists s', s0'. unfold identity in Hs', Hs0'.
  injection Hs' as Hu' Hc'. injection Hs0' as Hu0 Hc0.
  repeat split; congruence.
Qed.


(** *** The world when the snapshot has been taken *)

Lemma after_snapshot_self (names : list string) (w : World) :
  self (after_snapshot E names w)
  = set_original_streamers
      (original_streamers (self (after_snapshot E names w)))
      (set_streamers (registry_after E names w)
        (set_start_datetime (Some (clock w)) (set_running true (self w)))).
Proof.
  unfold after_snapshot, registry_after.
  destruct (snapshot_spec
    (load E (streamers (self (resolve E names (begin w))))
       (resolve E names (begin w)))) as (Hs & _ & _).
  rewrite Hs at 1. rewrite Hs. clear Hs.
  destruct (load_spec (streamers (self (resolve E names (begin w))))
    (resolve E names (begin w))) as (-> & _ & _).
  destruct (resolve_spec names (begin w)) as (-> & _ & _).
  destruct (begin_spec w) as (-> & -> & _).
  reflexivity.
Qed.

Lemma after_snapshot_streamers (names : list string) (w : World) :
  streamers (self (after_snapshot E names w)) = registry_after E names w.
Proof. by rewrite after_snapshot_self. Qed.

Lemma after_snapshot_trace (names : list string) (w : World) :
  trace (after_snapshot E names w)
  = trace w
    ++ [LogStartSession (session_id (self w)); AssignRunning true; Login]
    ++ flat_map (resolve_events E) names
    ++ flat_map load_events (registry_after E names w).
Proof.
  unfold after_snapshot, registry_after.
  destruct (snapshot_spec
    (load E (streamers (self (resolve E names (begin w))))
       (resolve E names (begin w)))) as (_ & _ & ->).
  destruct (load_spec (streamers (self (resolve E names (begin w))))
    (resolve E names (begin w))) as (_ & _ & ->).
  destruct (resolve_spec names (begin w)) as (-> & _ & ->).
  destruct (begin_spec w) as (-> & -> & ->).
  simpl. by rewrite <- !app_assoc.
Qed.

Lemma registry_after_bound (names : list string) (w : World) :
  valid_refs w ->
  Forall (fun l =>
    (l < length (heap w ++ resolved_streamers E names))%nat)
    (registry_after E names w).
Proof.
  intros Hv. unfold registry_after. rewrite length_app.
  apply Forall_app. split.
  - eapply Forall_impl; [exact Hv|]. intros l [s Hl]; simpl.
    apply lookup_lt_Some in Hl. lia.
  - apply Forall_forall. intros l Hl. apply elem_of_seq in Hl. lia.
Qed.

Lemma after_snapshot_heap (names : list string) (w : World) :
  valid_refs w ->
  exists h2 ext,
    heap (after_snapshot E names w) = h2 ++ ext
    /\ identity <$> h2 = identity <$> (heap w ++ resolved_streamers E names)
    /\ Forall2 (fun l c =>
         (length h2 <= c)%nat
         /\ is_Some (heap (after_snapshot E names w) !! c)
         /\ heap (after_snapshot E names w) !! c
            = heap (after_snapshot E names w) !! l)
         (registry_after E names w)
         (original_streamers (self (after_snapshot E names w))).
Proof.
  intros Hv. unfold after_snapshot.
  set (w1 := resolve E names (begin w)).
  set (w2 := load E (streamers (self w1)) w1).
  destruct (snapshot_spec w2) as (Hself & Hheap & _).
  rewrite Hself, Hheap. simpl.
  assert (Hw2s : streamers (self w2) = registry_after E names w).
  { unfold w2. destruct (load_spec (streamers (self w1)) w1) as (-> & _ & _).
    unfold w1. destruct (resolve_spec names (begin w)) as (-> & _ & _).
    destruct (begin_spec w) as (-> & -> & _). reflexivity. }
  assert (Hw2h : identity <$> heap w2
                 = identity <$> (heap w ++ resolved_streamers E names)).
  { unfold w2. destruct (load_spec (streamers (self w1)) w1) as (_ & -> & _).
    rewrite foldl_refresh_identity.
    unfold w1. destruct (resolve_spec names (begin w)) as (_ & -> & _).
    destruct (begin_spec w) as (_ & -> & _). reflexivity. }
  rewrite Hw2s.
  destruct (deepcopy (heap w2) (registry_after E names w)) as [cs h3] eqn:Hcopy.
  simpl.
  destruct (deepcopy_from_spec (length (heap w2)) (registry_after E names w)
              [] (heap w2) cs h3) as [[ext ->] Hall]; try done.
  - rewrite (identity_length _ _ Hw2h). by apply registry_after_bound.
  - exists (heap w2), ext. by repeat split.
Qed.

Lemma after_snapshot_paired (names : list string) (w : World) :
  valid_refs w -> paired (after_snapshot E names w).
Proof.
  intros Hv. destruct (after_snapshot_heap names w Hv)
    as (h2 & ext & Hh & Hid & Hall).
  unfold paired. rewrite after_snapshot_streamers.
  eapply Forall2_impl; [exact Hall|].
  intros l c (_ & [s Hs] & Heq). simpl in *.
  exists s, s. rewrite <- Heq. by repeat split.
Qed.

Lemma after_snapshot_separate (names : list string) (w : World) :
  valid_refs w -> separate (after_snapshot E names w).
Proof.
  intros Hv. destruct (after_snapshot_heap names w Hv)
    as (h2 & ext & Hh & Hid & Hall).
  pose proof (registry_after_bound names w Hv) as Hb.
  rewrite <- (identity_length _ _ Hid) in Hb.
  unfold separate. rewrite after_snapshot_streamers.
  intros o Ho Hin.
  apply (Forall2_Forall_r _ (fun c => (length h2 <= c)%nat)) in Hall.
  - rewrite Forall_forall in Hall, Hb.
    specialize (Hall _ Ho). specialize (Hb _ Hin). lia.
  - apply Forall_forall. intros l _ c (Hle & _). done.
Qed.

(** *** The report *)

Lemma gained_loop (n k : nat) (w : World) :
  paired w ->
  (k + n)%nat = length (streamers (self w)) ->
  for_each (seq k n) (fun streamer_index =>
    live ← gets (fun w => streamers (self w)) ;
    s ← item live streamer_index ;
    orig ← gets (fun w => original_streamers (self w)) ;
    o ← item orig streamer_index ;
    emit (LogGained s (channel_points s - channel_points o)) ;;
    match history s with
    | [] => mret tt
    | _ => emit (LogHistory s)
    end) w
  = (Ret tt,
     record_all
       (flat_map (gained_lines (heap w))
          (drop k (zip (streamers (self w)) (original_streamers (self w)))))
       w).
Proof.
  revert k w. induction n as [|n IH]; intros k w Hp Hlen.
  - simpl. rewrite drop_ge, record_all_nil; [done|].
    rewrite length_zip_with. lia.
  - assert (Hk : (k < length (streamers (self w)))%nat) by lia.
    apply lookup_lt_is_Some_2 in Hk as [l Hl].
    destruct (Forall2_lookup_l _ _ _ _ _ Hp Hl)
      as (o & Ho & s & s0 & Hs & Hs0 & _).
    assert (Hz : zip (streamers (self w)) (original_streamers (self w)) !! k
                 = Some (l, o)).
    { apply lookup_zip_with_Some. by exists l, o. }
    rewrite (drop_S _ _ _ Hz). simpl.
    erewrite bind_ret with (a := tt)
      (w' := record_all (gained_lines (heap w) (l, o)) w).
    2:{ unfold item, mbind, M_bind, mret, M_ret, emit, modify, gets. simpl.
        rewrite Hl, Hs, Ho, Hs0.
        unfold gained_lines; simpl. rewrite Hs, Hs0.
        destruct (history s); trace_eq. }
    rewrite IH.
    + simpl. by rewrite record_all_app.
    + done.
    + simpl. lia.
Qed.

Lemma print_report_eq (w : World) (t0 : Z) :
  start_datetime (self w) = Some t0 ->
  paired w ->
  print_report w = (Ret tt, record_all (report_lines w t0) w).
Proof.
  intros Ht Hp. unfold print_report.
  do 3 step.
  erewrite bind_ret with (a := tt)
    (w' := record_all
       ([PrintLine "\n"; LogEndSession (session_id (self w))]
        ++ match logs_file (self w) with
           | Some f => [LogLogsFile f]
           | None => []
           end) w).
  2:{ simpl. destruct (logs_file (self w)); trace_eq. }
  step.
  erewrite bind_ret with (a := tt)
    (w' := record_all
       ([PrintLine "\n"; LogEndSession (session_id (self w))]
        ++ match logs_file (self w) with
           | Some f => [LogLogsFile f]
           | None => []
           end
        ++ [LogDuration (clock w - t0)]) w).
  2:{ simpl. rewrite Ht. trace_eq. }
  erewrite bind_ret with (a := tt)
    (w' := record_all
       ([PrintLine "\n"; LogEndSession (session_id (self w))]
        ++ match logs_file (self w) with
           | Some f => [LogLogsFile f]
           | None => []
           end
        ++ [LogDuration (clock w - t0)]
        ++ (if make_predictions (self w)
            then [PrintLine ""; LogBetSettings (bet_settings (self w))]
                 ++ map (fun '(event_id, recap) => LogRecap event_id recap)
                      (events_predictions (self w))
                 ++ [PrintLine ""]
            else [])) w).
  2:{ simpl. destruct (make_predictions (self w)); simpl.
      - do 2 step.
        erewrite bind_ret.
        2:{ apply (for_each_pure _ (fun p =>
              record (let '(event_id, recap) := p in LogRecap event_id recap))).
            by intros [??] ?. }
        rewrite foldl_record. trace_eq.
      - trace_eq. }
  rewrite gained_loop; [|done|done].
  rewrite record_all_app. simpl.
  unfold report_lines. by rewrite <- !app_assoc.
Qed.

(** *** [end] *)

Lemma browser_quit_ok (w : World) :
  quit_error E = None -> browser_quit E w = (Ret tt, record BrowserQuit w).
Proof. intros H. unfold browser_quit. unfold_monad. by rewrite H. Qed.

Lemma browser_quit_fails (e : exn) (w : World) :
  quit_error E = Some e -> browser_quit E w = (Raise e, record BrowserQuit w).
Proof. intros H. unfold browser_quit. unfold_monad. by rewrite H. Qed.

Lemma pool_end_ok (w : World) :
  pool_end_error E = None -> pool_end E w = (Ret tt, record PoolEnd w).
Proof. intros H. unfold pool_end. unfold_monad. by rewrite H. Qed.

Lemma pool_end_fails (e : exn) (w : World) :
  pool_end_error E = Some e -> pool_end E w = (Raise e, record PoolEnd w).
Proof. intros H. unfold pool_end. unfold_monad. by rewrite H. Qed.

Lemma shutdown_round_spec (t0 : Z) (w : World) :
  self (shutdown_round t0 w) = self (stopped w)
  /\ heap (shutdown_round t0 w) = heap w
  /\ trace (shutdown_round t0 w)
     = trace w ++ release_events w ++ report_lines w t0 ++ [SleepGrace].
Proof. by repeat split. Qed.

Lemma shutdown_round_ready (t0 : Z) (w : World) :
  ready w -> ready (shutdown_round t0 w).
Proof.
  intros (Hpool & Hstart & Hp). by repeat split.
Qed.

(** Lines 158-162 when both release steps succeed. *)
Lemma release_eq (w : World) (k : unit -> M unit) :
  quit_error E = None ->
  pool_end_error E = None ->
  is_Some (ws_pool (self w)) ->
  (m ← gets self ;
   match twitch_browser m with
   | Some _ => browser_quit E
   | None => mret tt
   end ;;
   assign (set_running false) ;;
   emit (AssignRunning false) ;;
   assign (fun m =>
     set_twitch {| tw_username := tw_username (twitch m);
                   tw_running := false |} m) ;;
   emit (AssignTwitchRunning false) ;;
   pool ← gets (fun w => ws_pool (self w)) ;
   match pool with
   | Some _ => pool_end E
   | None => raise (AttributeError "'NoneType' object has no attribute 'end'")
   end ≫= k) w
  = k tt (record_all (release_events w) (stopped w)).
Proof.
  intros Hq Hpe [p Hpool]. step. unfold release_events.
  destruct (twitch_browser (self w)).
  - erewrite bind_ret by (by apply browser_quit_ok).
    do 5 step.
    erewrite bind_ret with (a := tt)
      (w' := record_all
         ([BrowserQuit]
          ++ [AssignRunning false; AssignTwitchRunning false; PoolEnd])
         (stopped w)); [done|].
    simpl. rewrite Hpool, pool_end_ok by done. trace_eq.
  - do 6 step.
    erewrite bind_ret with (a := tt)
      (w' := record_all
         ([] ++ [AssignRunning false; AssignTwitchRunning false; PoolEnd])
         (stopped w)); [done|].
    simpl. rewrite Hpool, pool_end_ok by done. trace_eq.
Qed.

Lemma end_with_eq (interrupt : M unit) (t0 : Z) (w : World) :
  quit_error E = None ->
  pool_end_error E = None ->
  start_datetime (self w) = Some t0 ->
  ready w ->
  end_with E interrupt w
  = (interrupt ;; emit (SysExit 0) ;; raise (SystemExit 0))
      (shutdown_round t0 w).
Proof.
  intros Hq Hpe Ht (Hpool & _ & Hp). unfold end_with.
  rewrite release_eq by done.
  erewrite bind_ret.
  2:{ apply (print_report_eq _ t0); [done|]. by apply (paired_ext w). }
  do 2 step.
  f_equal. unfold shutdown_round. trace_eq.
Qed.

Lemma end_eq (again : nat) (t0 : Z) (w : World) :
  quit_error E = None ->
  pool_end_error E = None ->
  start_datetime (self w) = Some t0 ->
  ready w ->
  end_ E again w = (Raise (SystemExit 0), shutdown again t0 w).
Proof.
  intros Hq Hpe. revert w.
  induction again as [|k IH]; intros w Ht Hr.
  - simpl. by rewrite (end_with_eq _ t0).
  - change (end_ E (S k)) with (end_with E (end_ E k)).
    rewrite (end_with_eq _ t0) by done.
    erewrite bind_raise; [reflexivity|].
    apply IH; [done|]. by apply shutdown_round_ready.
Qed.

(** The three ways in which [end] stops early. *)
Lemma end_quit_fails (interrupt : M unit) (e : exn) (w : World) :
  is_Some (twitch_browser (self w)) ->
  quit_error E = Some e ->
  end_with E interrupt w = (Raise e, record BrowserQuit w).
Proof.
  intros [b Hb] Hq. unfold end_with. step. rewrite Hb.
  by erewrite bind_raise by (by apply browser_quit_fails).
Qed.

Lemma end_without_pool (interrupt : M unit) (w : World) :
  quit_error E = None ->
  ws_pool (self w) = None ->
  end_with E interrupt w
  = (Raise (AttributeError "'NoneType' object has no attribute 'end'"),
     record_all
       (match twitch_browser (self w) with
        | Some _ => [BrowserQuit]
        | None => []
        end ++ [AssignRunning false; AssignTwitchRunning false])
       (stopped w)).
Proof.
  intros Hq Hpool. unfold end_with. step.
  destruct (twitch_browser (self w)).
  - erewrite bind_ret by (by apply browser_quit_ok).
    do 5 step. erewrite bind_raise; [reflexivity|].
    simpl. rewrite Hpool. trace_eq.
  - do 6 step. erewrite bind_raise; [reflexivity|].
    simpl. rewrite Hpool. trace_eq.
Qed.

Lemma end_pool_fails (interrupt : M unit) (e : exn) (w : World) :
  quit_error E = None ->
  is_Some (ws_pool (self w)) ->
  pool_end_error E = Some e ->
  end_with E interrupt w
  = (Raise e, record_all (release_events w) (stopped w)).
Proof.
  intros Hq [p Hpool] Hpe. unfold end_with, release_events. step.
  destruct (twitch_browser (self w)).
  - erewrite bind_ret by (by apply browser_quit_ok).
    do 5 step. erewrite bind_raise; [reflexivity|].
    simpl. rewrite Hpool, (pool_end_fails e) by done. trace_eq.
  - do 6 step. erewrite bind_raise; [reflexivity|].
    simpl. rewrite Hpool, (pool_end_fails e) by done. trace_eq.
Qed.

(** *** [run] and its waiting loop *)

Lemma run_busy (names : list string) (sched : list tick) (w : World) :
  running (self w) = true ->
  run E names sched w
  = (Ret tt,
     record (LogError "You can't start multiple session of this istance!") w).
Proof. intros H. unfold run. step. by rewrite H. Qed.

Lemma run_eq (names : list string) (sched : list tick) (w : World) :
  running (self w) = false ->
  run E names sched w = wait_loop E sched (started E names w).
Proof.
  intros H. unfold run. step. rewrite H.
  by erewrite bind_ret by apply start_session_eq.
Qed.

Lemma poll_spec (t : tick) (w : World) :
  streamers (self (poll t w)) = streamers (self w)
  /\ original_streamers (self (poll t w)) = original_streamers (self w)
  /\ ws_pool (self (poll t w)) = ws_pool (self w)
  /\ start_datetime (self (poll t w)) = start_datetime (self w)
  /\ running (self (poll t w)) = running (self w)
  /\ identity <$> heap (poll t w) = identity <$> heap w.
Proof.
  unfold poll.
  destruct (deliver_spec (arrivals t) (advance 1500 (record SleepPoll w)))
    as (-> & -> & -> & -> & -> & _ & _ & -> & _).
  by repeat split.
Qed.

Lemma idle_spec (ticks : list tick) (w : World) :
  streamers (self (idle ticks w)) = streamers (self w)
  /\ original_streamers (self (idle ticks w)) = original_streamers (self w)
  /\ ws_pool (self (idle ticks w)) = ws_pool (self w)
  /\ start_datetime (self (idle ticks w)) = start_datetime (self w)
  /\ running (self (idle ticks w)) = running (self w)
  /\ identity <$> heap (idle ticks w) = identity <$> heap w.
Proof.
  revert w. induction ticks as [|t ticks IH]; intros w; [by repeat split|].
  change (idle (t :: ticks) w) with (idle ticks (poll t w)).
  destruct (IH (poll t w)) as (-> & -> & -> & -> & -> & ->).
  apply poll_spec.
Qed.

Lemma wait_loop_stopped (sched : list tick) (w : World) :
  running (self w) = false -> wait_loop E sched w = (Ret tt, w).
Proof. intros H. destruct sched; simpl; by rewrite H. Qed.

Lemma wait_loop_tick (t : tick) (sched : list tick) (w : World) :
  running (self w) = true ->
  wait_loop E (t :: sched) w
  = (match action t with
     | Quiet => mret tt
     | Signal again => end_ E again
     | FlagCleared => assign (set_running false)
     end ;; wait_loop E sched) (poll t w).
Proof.
  intros H.
  change (wait_loop E (t :: sched) w) with
    (if running (self w)
     then (emit SleepPoll ;;
           modify (advance 1500) ;;
           modify (deliver (arrivals t)) ;;
           match action t with
           | Quiet => mret tt
           | Signal again => end_ E again
           | FlagCleared => assign (set_running false)
           end ;;
           wait_loop E sched) w
     else (Ret tt, w)).
  rewrite H. by do 3 step.
Qed.

Lemma wait_loop_quiet (ticks sched : list tick) (w : World) :
  running (self w) = true ->
  Forall quiet ticks ->
  wait_loop E (ticks ++ sched) w = wait_loop E sched (idle ticks w).
Proof.
  intros Hr Hq. revert w Hr.
  induction Hq as [|t ticks Ht Hq IH]; intros w Hr; [done|].
  rewrite <- app_comm_cons, wait_loop_tick by done.
  rewrite Ht. step.
  change (idle (t :: ticks) w) with (idle ticks (poll t w)).
  apply IH. destruct (poll_spec t w) as (_ & _ & _ & _ & -> & _). done.
Qed.

Lemma wait_loop_blocked (w : World) :
  running (self w) = true -> wait_loop E [] w = (Blocked, w).
Proof. intros H. simpl. by rewrite H. Qed.

(** *** The world in which [run] starts waiting *)

Lemma started_self (names : list string) (w : World) :
  streamers (self (started E names w)) = registry_after E names w
  /\ original_streamers (self (started E names w))
     = original_streamers (self (after_snapshot E names w))
  /\ running (self (started E names w)) = true
  /\ start_datetime (self (started E names w)) = Some (clock w)
  /\ make_predictions (self (started E names w)) = make_predictions (self w)
  /\ follow_raid (self (started E names w)) = follow_raid (self w)
  /\ is_Some (ws_pool (self (started E names w)))
  /\ heap (started E names w) = heap (after_snapshot E names w).
Proof.
  unfold started.
  destruct (activities_spec (after_snapshot E names w))
    as (-> & -> & -> & -> & -> & -> & Hpool & -> & _).
  rewrite after_snapshot_self. by repeat split.
Qed.

Lemma started_trace (names : list string) (w : World) :
  trace (started E names w) = trace w ++ session_events E names w.
Proof.
  unfold started at 1.
  destruct (activities_spec (after_snapshot E names w))
    as (_ & _ & _ & _ & _ & _ & _ & _ & ->).
  rewrite after_snapshot_trace. unfold session_events.
  replace (make_predictions (self (after_snapshot E names w)))
    with (make_predictions (self w)) by (by rewrite after_snapshot_self).
  fold (started E names w). by rewrite <- !app_assoc.
Qed.

Lemma started_paired (names : list string) (w : World) :
  valid_refs w -> paired (started E names w).
Proof.
  intros Hv. destruct (started_self names w)
    as (Hs & Ho & _ & _ & _ & _ & _ & Hh).
  apply (paired_ext (after_snapshot E names w)).
  - by rewrite Hs, after_snapshot_streamers.
  - done.
  - by rewrite Hh.
  - by apply after_snapshot_paired.
Qed.

Lemma started_ready (names : list string) (w : World) :
  valid_refs w -> ready (started E names w).
Proof.
  intros Hv. destruct (started_self names w)
    as (_ & _ & _ & Ht & _ & _ & Hpool & _).
  repeat split; [done| by rewrite Ht | by apply started_paired].
Qed.

Lemma run_reaches_loop (names : list string) (w : World) :
  running (self w) = false ->
  run E names [] w = (Blocked, started E names w).
Proof.
  intros H. rewrite run_eq by done. apply wait_loop_blocked.
  by destruct (started_self names w) as (_ & _ & -> & _).
Qed.

Lemma run_events (names : list string) (w : World) :
  running (self w) = false ->
  events_of (run E names []) w = session_events E names w.
Proof.
  intros H. apply events_of_app. unfold exec.
  rewrite run_reaches_loop by done. apply started_trace.
Qed.

(** *** Reading the trace of a session *)

Lemma omap_none {A B} (f : A -> option B) (l : list A) :
  Forall (fun x => f x = None) l -> omap f l = [].
Proof. induction 1 as [|x l Hx _ IH]; simpl; [done|]. by rewrite Hx. Qed.

Lemma observe_session {B} (f : event -> option B) (names : list string)
    (w : World) :
  Forall (fun e => f e = None)
    [LogStartSession (session_id (self w)); AssignRunning true; Login;
     SleepJitter; BrowserInit; ThreadStart; PoolCreate] ->
  (forall l, f (LoadChannelPointsContext l) = None) ->
  (forall l, f (CheckStreamerOnline l) = None) ->
  omap f (session_events E names w)
  = omap f (flat_map (fun n =>
      GetChannelId n
      :: match get_channel_id E n with
         | Some _ => []
         | None => [LogDoesNotExist n]
         end) names)
    ++ omap f (map Submit (topics_of E (self (started E names w)))).
Proof.
  intros Hfix Hload Hcheck.
  repeat match goal with
         | H : Forall _ (_ :: _) |- _ =>
             apply Forall_cons in H; destruct H as [? H]
         end.
  unfold session_events. rewrite !omap_app.
  rewrite (omap_none f [LogStartSession _; AssignRunning true; Login])
    by (by repeat constructor).
  rewrite (omap_none f (flat_map load_events _)).
  2:{ apply Forall_flat_map, Forall_forall. intros l _.
      by repeat constructor. }
  rewrite (omap_none f (if make_predictions (self w) then _ else _))
    by (destruct (make_predictions (self w)); by repeat constructor).
  rewrite (omap_none f [ThreadStart; PoolCreate])
    by (by repeat constructor).
  simpl. f_equal.
  induction names as [|n names IH]; simpl; [done|].
  rewrite !omap_app, IH. simpl.
  by match goal with H : f SleepJitter = None |- _ => rewrite H end.
Qed.

Lemma submitted_session (names : list string) (w : World) :
  submitted (session_events E names w)
  = topics_of E (self (started E names w)).
Proof.
  unfold submitted. rewrite observe_session; try done.
  2:{ by repeat constructor. }
  rewrite omap_none.
  - rewrite app_nil_l.
    generalize (topics_of E (self (started E names w))). intros ts.
    induction ts as [|t ts IH]; simpl; [done|]. f_equal. exact IH.
  - apply Forall_flat_map, Forall_forall. intros n _.
    destruct (get_channel_id E n); by repeat constructor.
Qed.

Lemma channel_id_calls_session (names : list string) (w : World) :
  channel_id_calls (session_events E names w) = names.
Proof.
  unfold channel_id_calls. rewrite observe_session; try done.
  2:{ by repeat constructor. }
  rewrite (omap_none _ (map Submit _)).
  2:{ apply Forall_map, Forall_forall. by intros t _. }
  rewrite app_nil_r.
  induction names as [|n names IH]; simpl; [done|].
  rewrite omap_app, IH.
  by destruct (get_channel_id E n).
Qed.

Lemma not_found_logs_session (names : list string) (w : World) :
  not_found_logs (session_events E names w)
  = List.filter (fun n => negb (resolvable E n)) names.
Proof.
  unfold not_found_logs. rewrite observe_session; try done.
  2:{ by repeat constructor. }
  rewrite (omap_none _ (map Submit _)).
  2:{ apply Forall_map, Forall_forall. by intros t _. }
  rewrite app_nil_r.
  induction names as [|n names IH]; simpl; [done|].
  rewrite omap_app, IH. unfold resolvable.
  by destruct (get_channel_id E n).
Qed.

(** *** The names in the registry *)

Lemma usernames_extend (h h2 ext : list Streamer) (ls : list loc) :
  identity <$> h2 = identity <$> h ->
  Forall (fun l => (l < length h)%nat) ls ->
  map username (omap (fun l => (h2 ++ ext) !! l) ls)
  = map username (omap (fun l => h !! l) ls).
Proof.
  intros Hid. induction 1 as [|l ls Hl _ IH]; simpl; [done|].
  apply lookup_lt_is_Some_2 in Hl as [s Hs].
  destruct (identity_lookup _ _ _ _ Hid Hs) as (s' & Hs' & Heq).
  rewrite (lookup_app_l_Some _ _ _ _ Hs'), Hs. simpl.
  f_equal; [|exact IH]. unfold identity in Heq. congruence.
Qed.

Lemma omap_lookup_old (h r : list Streamer) (ls : list loc) :
  Forall (fun l => is_Some (h !! l)) ls ->
  omap (fun l => (h ++ r) !! l) ls = omap (fun l => h !! l) ls.
Proof.
  induction 1 as [|l ls [s Hs] _ IH]; simpl; [done|].
  rewrite (lookup_app_l_Some _ _ _ _ Hs), Hs. f_equal. exact IH.
Qed.

Lemma omap_pointwise {A B} (f g : A -> option B) (l : list A) :
  (forall x, f x = g x) -> omap f l = omap g l.
Proof.
  intros H. induction l as [|x l IH]; simpl; [done|].
  rewrite H. destruct (g x); [f_equal|]; exact IH.
Qed.

Lemma omap_lookup_new (r h : list Streamer) :
  omap (fun l => (h ++ r) !! l) (seq (length h) (length r)) = r.
Proof.
  revert h. induction r as [|x r IH]; intros h; simpl; [done|].
  rewrite list_lookup_middle by done. f_equal.
  specialize (IH (h ++ [x])).
  rewrite length_app, Nat.add_1_r in IH.
  rewrite <- IH at 2.
  apply omap_pointwise. intros l. by rewrite <- app_assoc.
Qed.

Lemma resolved_usernames (names : list string) :
  map username (resolved_streamers E names)
  = List.filter (resolvable E) names.
Proof.
  induction names as [|n names IH]; [done|].
  rewrite resolved_streamers_cons. simpl. unfold resolvable at 1.
  destruct (get_channel_id E n); simpl; by rewrite IH.
Qed.

Lemma started_usernames (names : list string) (w : World) :
  valid_refs w ->
  map username (live_streamers (started E names w))
  = map username (live_streamers w) ++ List.filter (resolvable E) names.
Proof.
  intros Hv. unfold live_streamers.
  destruct (started_self names w) as (-> & _ & _ & _ & _ & _ & _ & ->).
  destruct (after_snapshot_heap names w Hv) as (h2 & ext & -> & Hid & _).
  rewrite (usernames_extend _ _ _ _ Hid (registry_after_bound names w Hv)).
  unfold registry_after. rewrite omap_app, map_app.
  rewrite omap_lookup_old by done.
  by rewrite omap_lookup_new, resolved_usernames.
Qed.

(** ** Properties of [run] *)

Lemma topics_of_In (m : Miner) (t : PubsubTopic) :
  In t (topics_of E m) <->
    t = UserTopic "community-points-user-v1" (get_user_id E)
    \/ (make_predictions m = true
        /\ t = UserTopic "predictions-user-v1" (get_user_id E))
    \/ (exists l, In l (streamers m)
        /\ t = StreamerTopic "video-playback-by-id" l)
    \/ (follow_raid m = true
        /\ exists l, In l (streamers m) /\ t = StreamerTopic "raid" l)
    \/ (make_predictions m = true
        /\ exists l, In l (streamers m)
           /\ t = StreamerTopic "predictions-channel-v1" l).
Proof.
  unfold topics_of. rewrite !in_app_iff, in_flat_map.
  destruct (make_predictions m), (follow_raid m); simpl;
    firstorder (subst; eauto; congruence).
Qed.

(** C5.  Whatever the configuration, the topics [run] submits to the
    pool are, in order, those of [topics_of]; a topic is among them
    exactly when it is the account-points topic, or the
    account-predictions topic and betting is enabled, or, for a streamer
    of the registry, its video-playback topic, its raid topic and
    raid-following is enabled, or its channel-predictions topic and
    betting is enabled. *)
Theorem topics_registered (names : list string) (w : World) :
  running (self w) = false ->
  let w' := exec (run E names []) w in
  submitted (events_of (run E names []) w) = topics_of E (self w')
  /\ forall t,
       In t (submitted (events_of (run E names []) w)) <->
         t = UserTopic "community-points-user-v1" (get_user_id E)
         \/ (make_predictions (self w) = true
             /\ t = UserTopic "predictions-user-v1" (get_user_id E))
         \/ (exists l, In l (streamers (self w'))
             /\ t = StreamerTopic "video-playback-by-id" l)
         \/ (follow_raid (self w) = true
             /\ exists l, In l (streamers (self w'))
                /\ t = StreamerTopic "raid" l)
         \/ (make_predictions (self w) = true
             /\ exists l, In l (streamers (self w'))
                /\ t = StreamerTopic "predictions-channel-v1" l).
Proof.
  intros Hr w'.
  assert (Hw' : w' = started E names w).
  { unfold w', exec. by rewrite run_reaches_loop. }
  rewrite run_events, submitted_session, Hw' by done.
  split; [done|]. intros t. rewrite topics_of_In.
  destruct (started_self names w) as (_ & _ & _ & _ & -> & -> & _).
  reflexivity.
Qed.

(** C6.  A configured name whose channel id cannot be resolved is logged
    and skipped: [run] still reaches its waiting loop, every configured
    name has been looked up, the names that failed are the ones logged,
    and the registry has gained exactly the names that resolve, in
    order. *)
Theorem unknown_names_are_skipped (names : list string) (w : World) :
  running (self w) = false ->
  valid_refs w ->
  let w' := exec (run E names []) w in
  result (run E names []) w = Blocked
  /\ running (self w') = true
  /\ channel_id_calls (events_of (run E names []) w) = names
  /\ not_found_logs (events_of (run E names []) w)
     = List.filter (fun n => negb (resolvable E n)) names
  /\ map username (live_streamers w')
     = map username (live_streamers w) ++ List.filter (resolvable E) names.
Proof.
  intros Hr Hv w'. unfold w', exec, result.
  rewrite run_events, run_reaches_loop by done. cbn [fst snd].
  split; [done|].
  split; [by destruct (started_self names w) as (_ & _ & -> & _)|].
  split; [apply channel_id_calls_session|].
  split; [apply not_found_logs_session|].
  by apply started_usernames.
Qed.

(** C8.  [run] and [mine] on a miner that is already running return at
    once: every attribute of the miner, the streamer objects and the
    clock are as before, and the only thing added to the trace is the
    error line. *)
Theorem run_while_running (names : list string) (sched : list tick)
    (w : World) :
  running (self w) = true ->
  result (run E names sched) w = Ret tt
  /\ result (mine E names sched) w = Ret tt
  /\ self (exec (run E names sched) w) = self w
  /\ self (exec (mine E names sched) w) = self w
  /\ heap (exec (mine E names sched) w) = heap w
  /\ clock (exec (mine E names sched) w) = clock w
  /\ events_of (mine E names sched) w
     = [LogError "You can't start multiple session of this istance!"].
Proof.
  intros Hr. unfold mine, events_of, result, exec.
  rewrite run_busy by done. cbn [fst snd]. repeat split.
  apply drop_app_length.
Qed.

(** C9.  Resolution and construction use each configured name as it is
    written: the lookups are made with the configured strings, the
    streamers built carry them unchanged, and two distinct configured
    names with the same lower-cased, stripped form are both stored. *)
Theorem names_are_not_normalized (names : list string) (w : World) :
  running (self w) = false ->
  valid_refs w ->
  let w' := exec (run E names []) w in
  channel_id_calls (events_of (run E names []) w) = names
  /\ map username (live_streamers w')
     = map username (live_streamers w) ++ List.filter (resolvable E) names
  /\ forall n1 n2,
       In n1 names -> In n2 names ->
       resolvable E n1 = true -> resolvable E n2 = true ->
       strip (lower n1) = strip (lower n2) -> n1 <> n2 ->
       In n1 (map username (live_streamers w'))
       /\ In n2 (map username (live_streamers w')).
Proof.
  intros Hr Hv w'.
  assert (Hw' : w' = started E names w).
  { unfold w', exec. by rewrite run_reaches_loop. }
  rewrite run_events, channel_id_calls_session, Hw' by done.
  rewrite started_usernames by done.
  split; [done|]. split; [done|].
  intros n1 n2 H1 H2 Hr1 Hr2 _ _.
  rewrite !in_app_iff, !filter_In. tauto.
Qed.

Lemma poll_ready (t : tick) (w : World) : ready w -> ready (poll t w).
Proof.
  intros (Hpool & Hstart & Hp).
  destruct (poll_spec t w) as (Hs & Ho & Hpl & Hst & _ & Hid).
  repeat split; [by rewrite Hpl | by rewrite Hst | by apply (paired_ext w)].
Qed.

Lemma idle_ready (ticks : list tick) (w : World) :
  ready w -> ready (idle ticks w).
Proof.
  revert w. induction ticks as [|t ticks IH]; intros w Hr; [done|].
  apply (IH (poll t w)). by apply poll_ready.
Qed.

Lemma rounds_self (n : nat) (t0 : Z) (w : World) :
  self (rounds (S n) t0 w) = self (stopped w).
Proof.
  revert w. induction n as [|n IH]; intros w; [done|].
  change (rounds (S (S n)) t0 w) with (rounds (S n) t0 (shutdown_round t0 w)).
  rewrite IH. by destruct w as [[[] ? ? ? ? ? ? ? ? ? ? ? ? ? ?] ? ? ?].
Qed.

(** C7.  Once the topics are registered, [run] waits on [running]: as
    long as nothing clears the flag it has not returned, however many
    sleeps go by; when another thread clears the flag during a sleep,
    [run] returns after that sleep, whatever would have come next; and
    when a signal runs the handler [end] during a sleep, [run] ends
    there with the handler's [SystemExit], the flag cleared. *)
Theorem run_blocks_until_stopped (names : list string)
    (ticks rest : list tick) (t : tick) (w : World) :
  running (self w) = false ->
  Forall quiet ticks ->
  (result (run E names ticks) w = Blocked
   /\ running (self (exec (run E names ticks) w)) = true)
  /\ (action t = FlagCleared ->
      run E names (ticks ++ t :: rest) w
      = (Ret tt,
         on_self (set_running false)
           (poll t (idle ticks (started E names w))))
      /\ running (self (exec (run E names (ticks ++ t :: rest)) w)) = false)
  /\ (forall again,
        action t = Signal again ->
        valid_refs w -> quit_error E = None -> pool_end_error E = None ->
        result (run E names (ticks ++ t :: rest)) w = Raise (SystemExit 0)
        /\ running (self (exec (run E names (ticks ++ t :: rest)) w))
           = false).
Proof.
  intros Hr Hq.
  assert (Hrun : running (self (started E names w)) = true)
    by (by destruct (started_self names w) as (_ & _ & -> & _)).
  assert (Hidle : running (self (idle ticks (started E names w))) = true).
  { destruct (idle_spec ticks (started E names w))
      as (_ & _ & _ & _ & -> & _). done. }
  unfold result, exec. rewrite !run_eq by done.
  split; [|split].
  - rewrite <- (app_nil_r ticks), wait_loop_quiet by done.
    by rewrite wait_loop_blocked.
  - intros Ht. rewrite wait_loop_quiet, wait_loop_tick by done.
    rewrite Ht. step. by rewrite wait_loop_stopped.
  - intros again Ht Hv Hquit Hpool.
    rewrite wait_loop_quiet, wait_loop_tick by done.
    rewrite Ht.
    erewrite bind_raise.
    2:{ apply (end_eq again (clock w)); try done.
        - destruct (poll_spec t (idle ticks (started E names w)))
            as (_ & _ & _ & -> & _).
          destruct (idle_spec ticks (started E names w))
            as (_ & _ & _ & -> & _).
          by destruct (started_self names w) as (_ & _ & _ & -> & _).
        - by apply poll_ready, idle_ready, started_ready. }
    cbn [fst snd]. split; [done|].
    unfold shutdown. change (self (record ?e ?x)) with (self x).
    by rewrite rounds_self.
Qed.

(** ** Properties of [end] *)

Lemma count_where_app (p : event -> bool) (a b : list event) :
  count_where p (a ++ b) = (count_where p a + count_where p b)%nat.
Proof. unfold count_where. by rewrite List.filter_app, length_app. Qed.

Lemma count_where_none (p : event -> bool) (l : list event) :
  Forall (fun e => p e = false) l -> count_where p l = O.
Proof.
  unfold count_where. induction 1 as [|e l He _ IH]; simpl; [done|].
  by rewrite He.
Qed.

(** The report is its "End session" header followed by lines of other
    kinds. *)
Lemma report_lines_shape (w : World) (t0 : Z) :
  exists body,
    report_lines w t0
    = [PrintLine "\n"; LogEndSession (session_id (self w))] ++ body
    /\ Forall (fun e =>
         is_report e = false /\ is_quit e = false /\ is_pool_end e = false)
         body.
Proof.
  unfold report_lines. eexists. split; [reflexivity|].
  repeat apply Forall_app_2.
  - destruct (logs_file (self w)); by repeat constructor.
  - by repeat constructor.
  - destruct (make_predictions (self w)); [|constructor].
    repeat apply Forall_app_2; try by repeat constructor.
    apply Forall_map, Forall_forall. by intros [??] _.
  - apply Forall_flat_map, Forall_forall. intros [l o] _.
    unfold gained_lines; simpl.
    destruct (heap w !! l) as [s|]; [|constructor].
    destruct (heap w !! o); [|constructor].
    destruct (history s); by repeat constructor.
Qed.

Lemma report_lines_counts (w : World) (t0 : Z) :
  count_where is_report (report_lines w t0) = 1%nat
  /\ count_where is_quit (report_lines w t0) = O
  /\ count_where is_pool_end (report_lines w t0) = O.
Proof.
  destruct (report_lines_shape w t0) as (body & -> & Hbody).
  rewrite !count_where_app.
  rewrite !(count_where_none _ body).
  - done.
  - eapply Forall_impl; [exact Hbody|]. by intros e (_ & _ & ?).
  - eapply Forall_impl; [exact Hbody|]. by intros e (_ & ? & _).
  - eapply Forall_impl; [exact Hbody|]. by intros e (? & _ & _).
Qed.

Lemma release_events_counts (w : World) :
  count_where is_report (release_events w) = O
  /\ count_where is_quit (release_events w)
     = match twitch_browser (self w) with Some _ => 1%nat | None => O end
  /\ count_where is_pool_end (release_events w) = 1%nat.
Proof. unfold release_events. by destruct (twitch_browser (self w)). Qed.

Lemma rounds_counts (n : nat) (t0 : Z) (w : World) :
  exists evs,
    trace (rounds n t0 w) = trace w ++ evs
    /\ count_where is_report evs = n
    /\ count_where is_quit evs
       = match twitch_browser (self w) with Some _ => n | None => O end
    /\ count_where is_pool_end evs = n.
Proof.
  revert w. induction n as [|n IH]; intros w.
  - exists []. simpl. rewrite app_nil_r. by destruct (twitch_browser _).
  - destruct (IH (shutdown_round t0 w)) as (evs & Ht & Hrep & Hquit & Hpool).
    exists ((release_events w ++ report_lines w t0 ++ [SleepGrace]) ++ evs).
    split.
    { change (rounds (S n) t0 w) with (rounds n t0 (shutdown_round t0 w)).
      rewrite Ht. destruct (shutdown_round_spec t0 w) as (_ & _ & ->).
      by rewrite <- !app_assoc. }
    destruct (report_lines_counts w t0) as (Hr1 & Hr2 & Hr3).
    destruct (release_events_counts w) as (He1 & He2 & He3).
    rewrite !count_where_app, Hrep, Hquit, Hpool, Hr1, Hr2, Hr3,
      He1, He2, He3.
    change (twitch_browser (self (shutdown_round t0 w)))
      with (twitch_browser (self w)).
    destruct (twitch_browser (self w)); simpl; repeat split; lia.
Qed.

Lemma end_events (again : nat) (t0 : Z) (w : World) :
  quit_error E = None ->
  pool_end_error E = None ->
  start_datetime (self w) = Some t0 ->
  ready w ->
  exists rest,
    events_of (end_ E again) w
    = release_events w ++ report_lines w t0 ++ [SleepGrace] ++ rest.
Proof.
  intros Hq Hpe Ht Hr.
  destruct (rounds_counts again t0 (shutdown_round t0 w)) as (evs & Hevs & _).
  exists (evs ++ [SysExit 0]).
  apply events_of_app. unfold exec. rewrite (end_eq again t0) by done.
  unfold shutdown. cbn [snd].
  change (rounds (S again) t0 w) with (rounds again t0 (shutdown_round t0 w)).
  change (trace (record ?e ?x)) with (trace x ++ [e]).
  rewrite Hevs. destruct (shutdown_round_spec t0 w) as (_ & _ & ->).
  by rewrite <- !app_assoc.
Qed.

Lemma end_counts (again : nat) (t0 : Z) (w : World) :
  quit_error E = None ->
  pool_end_error E = None ->
  start_datetime (self w) = Some t0 ->
  ready w ->
  count_where is_report (events_of (end_ E again) w) = S again
  /\ count_where is_quit (events_of (end_ E again) w)
     = match twitch_browser (self w) with Some _ => S again | None => O end
  /\ count_where is_pool_end (events_of (end_ E again) w) = S again.
Proof.
  intros Hq Hpe Ht Hr.
  destruct (rounds_counts (S again) t0 w) as (evs & Hevs & Hrep & Hquit & Hpool).
  assert (Hev : events_of (end_ E again) w = evs ++ [SysExit 0]).
  { apply events_of_app. unfold exec. rewrite (end_eq again t0) by done.
    unfold shutdown. cbn [snd].
    change (trace (record ?e ?x)) with (trace x ++ [e]).
    rewrite Hevs. by rewrite <- app_assoc. }
  rewrite Hev, !count_where_app, Hrep, Hquit, Hpool.
  unfold count_where.
  destruct (twitch_browser (self w)); simpl; repeat split; lia.
Qed.

Ltac first_indices a b :=
  exists a, b; split; [reflexivity|]; split; [reflexivity|lia].

(** C1, as the code has it.  On a miner whose pool exists and whose
    release steps succeed, every invocation of [end] first quits the
    browser (when there is one), then clears [running], then ends the
    pool, then prints the report, then sleeps: the browser is released
    before the flag is cleared, not after. *)
Theorem shutdown_order (again : nat) (t0 : Z) (w : World) :
  quit_error E = None ->
  pool_end_error E = None ->
  start_datetime (self w) = Some t0 ->
  ready w ->
  (exists rest,
     events_of (end_ E again) w
     = release_events w ++ report_lines w t0 ++ [SleepGrace] ++ rest)
  /\ (is_Some (twitch_browser (self w)) ->
      order_of_end (events_of (end_ E again) w))
  /\ precedes is_flag_cleared is_pool_end (events_of (end_ E again) w)
  /\ precedes is_pool_end is_report (events_of (end_ E again) w).
Proof.
  intros Hq Hpe Ht Hr.
  destruct (end_events again t0 w Hq Hpe Ht Hr) as (rest & Hev).
  split; [by exists rest|]. rewrite Hev.
  destruct (report_lines_shape w t0) as (body & -> & _).
  unfold order_of_end, release_events.
  destruct (twitch_browser (self w)) as [b|].
  - split; [intros _; split; [|split]|split].
    + first_indices 0%nat 1%nat.
    + first_indices 1%nat 3%nat.
    + first_indices 3%nat 5%nat.
    + first_indices 1%nat 3%nat.
    + first_indices 3%nat 5%nat.
  - split; [by intros [? ?]|split].
    + first_indices 0%nat 2%nat.
    + first_indices 2%nat 4%nat.
Qed.

(** C2, as the code has it.  [end] keeps no record of having run: each
    invocation on a miner whose pool exists quits the browser again
    (when there is one), ends the pool again and prints the report
    again, so [again] further invocations during the final sleep give
    [S again] reports; a later invocation on the state the first one
    left prints one more.  Only the attributes of the miner are the same
    after one invocation and after several. *)
Theorem shutdown_repeats (again : nat) (t0 : Z) (w : World) :
  quit_error E = None ->
  pool_end_error E = None ->
  start_datetime (self w) = Some t0 ->
  ready w ->
  count_where is_report (events_of (end_ E again) w) = S again
  /\ count_where is_pool_end (events_of (end_ E again) w) = S again
  /\ count_where is_quit (events_of (end_ E again) w)
     = match twitch_browser (self w) with
       | Some _ => S again
       | None => O
       end
  /\ self (exec (end_ E again) w) = self (exec (end_ E O) w)
  /\ count_where is_report
       (events_of (end_ E O) (exec (end_ E O) w)) = 1%nat
  /\ self (exec (end_ E O) (exec (end_ E O) w)) = self (exec (end_ E O) w)
  /\ running (self (exec (end_ E again) w)) = false.
Proof.
  intros Hq Hpe Ht Hr.
  destruct (end_counts again t0 w Hq Hpe Ht Hr) as (Hrep & Hquit & Hpool).
  split; [done|]. split; [done|]. split; [done|].
  assert (Hself : forall n, self (exec (end_ E n) w) = self (stopped w)).
  { intros n. unfold exec. rewrite (end_eq n t0) by done.
    unfold shutdown. cbn [snd]. change (self (record ?e ?x)) with (self x).
    apply rounds_self. }
  split; [by rewrite !Hself|].
  assert (Hw1 : exec (end_ E O) w = shutdown O t0 w).
  { unfold exec. by rewrite (end_eq O t0). }
  assert (Hr1 : ready (shutdown O t0 w)).
  { unfold shutdown. simpl rounds.
    by apply (shutdown_round_ready t0) in Hr. }
  assert (Ht1 : start_datetime (self (shutdown O t0 w)) = Some t0) by done.
  rewrite Hw1.
  destruct (end_counts O t0 _ Hq Hpe Ht1 Hr1) as (Hrep1 & _).
  split; [done|].
  split; [|by rewrite Hself].
  unfold exec at 1. rewrite (end_eq O t0) by done.
  unfold shutdown at 1. cbn [snd].
  change (self (record ?e ?x)) with (self x).
  rewrite rounds_self. by destruct w as [[[] ? ? ? ? ? ? ? ? ? ? ? ? ? ?] ? ? ?].
Qed.

(** C3, as the code has it.  On a miner whose pool exists, [end] prints
    the report and leaves through [sys.exit(0)] when both release steps
    succeed.  A release step that fails is not caught: the exception of
    [browser.quit()] leaves [end] before anything else has happened, the
    exception of [ws_pool.end()] leaves it before the report. *)
Theorem shutdown_outcomes (again : nat) (t0 : Z) (w : World) :
  start_datetime (self w) = Some t0 ->
  ready w ->
  (quit_error E = None -> pool_end_error E = None ->
   result (end_ E again) w = Raise (SystemExit 0)
   /\ count_where is_report (events_of (end_ E again) w) = S again)
  /\ (forall e,
        is_Some (twitch_browser (self w)) -> quit_error E = Some e ->
        end_ E again w = (Raise e, record BrowserQuit w))
  /\ (forall e,
        quit_error E = None -> pool_end_error E = Some e ->
        result (end_ E again) w = Raise e
        /\ count_where is_report (events_of (end_ E again) w) = O).
Proof.
  intros Ht Hr. split; [|split].
  - intros Hq Hpe. unfold result. rewrite (end_eq again t0) by done.
    split; [done|].
    by destruct (end_counts again t0 w Hq Hpe Ht Hr) as (? & _).
  - intros e Hb Hq. destruct again; by apply end_quit_fails.
  - intros e Hq Hpe. destruct Hr as (Hpool & _).
    assert (Hend : end_ E again w
                   = (Raise e, record_all (release_events w) (stopped w)))
      by (destruct again; by apply end_pool_fails).
    unfold result, events_of, exec. rewrite Hend. cbn [fst snd].
    split; [done|].
    change (trace (record_all ?evs ?x)) with (trace x ++ evs).
    change (trace (stopped w)) with (trace w).
    rewrite drop_app_length.
    by destruct (release_events_counts w) as (? & _).
Qed.

(** ** From the snapshot to the report *)

Lemma session_step_frame (w w' : World) :
  session_step w w' ->
  streamers (self w') = streamers (self w)
  /\ original_streamers (self w') = original_streamers (self w)
  /\ start_datetime (self w') = start_datetime (self w)
  /\ identity <$> heap w' = identity <$> heap w
  /\ (forall o, o ∉ streamers (self w) -> heap w' !! o = heap w !! o).
Proof.
  destruct 1 as [e w|e w|ms w|f w Hf].
  - destruct (deliver_event_spec e w)
      as (-> & -> & _ & -> & _ & _ & _ & -> & Hother). by repeat split.
  - by repeat split.
  - by repeat split.
  - destruct Hf; by repeat split.
Qed.

Lemma session_frame (w w' : World) :
  rtc session_step w w' ->
  streamers (self w') = streamers (self w)
  /\ original_streamers (self w') = original_streamers (self w)
  /\ start_datetime (self w') = start_datetime (self w)
  /\ identity <$> heap w' = identity <$> heap w
  /\ (forall o, o ∉ streamers (self w) -> heap w' !! o = heap w !! o).
Proof.
  induction 1 as [w|w w1 w' Hstep _ IH]; [by repeat split|].
  destruct IH as (-> & -> & -> & -> & Hother).
  destruct (session_step_frame _ _ Hstep) as (Hs & -> & -> & -> & Hother1).
  repeat split; try done.
  intros o Ho. rewrite Hother by (by rewrite Hs). by apply Hother1.
Qed.

Lemma record_all_cons (e : event) (evs : list event) (w : World) :
  record_all (e :: evs) w = record_all evs (record e w).
Proof. unfold record_all, record; simpl. by rewrite <- app_assoc. Qed.

Lemma reach_record_all (evs : list event) (w : World) :
  rtc session_step w (record_all evs w).
Proof.
  revert w. induction evs as [|e evs IH]; intros w.
  - by rewrite record_all_nil.
  - rewrite record_all_cons. eapply rtc_l; [apply step_record | apply IH].
Qed.

Lemma reach_deliver (evs : list session_event) (w : World) :
  rtc session_step w (deliver evs w).
Proof.
  revert w. induction evs as [|e evs IH]; intros w; [done|].
  eapply rtc_l; [apply (step_event e) | apply IH].
Qed.



Lemma reach_started (names : list string) (w : World) :
  rtc session_step (after_snapshot E names w) (started E names w).
Proof.
  unfold started, activities.
  generalize (after_snapshot E names w). intros W.
  etrans; [|apply reach_record_all].
  eapply rtc_r; [|apply step_record].
  eapply rtc_r; [|apply step_assign, late_ws_pool].
  eapply rtc_r; [|apply step_record].
  eapply rtc_r; [|apply step_assign, late_minute_watcher_thread].
  destruct (make_predictions (self W)); [|done].
  eapply rtc_r; [|apply step_record].
  apply rtc_once, step_assign, late_twitch_browser.
Qed.


Lemma gained_of_report (w : World) (t0 : Z) :
  gained_of (report_lines w t0)
  = omap (gain_entry (heap w))
      (zip (streamers (self w)) (original_streamers (self w))).
Proof.
  unfold report_lines, gained_of. rewrite !omap_app.
  rewrite (omap_none _ [PrintLine _; LogEndSession _])
    by (by repeat constructor).
  rewrite (omap_none _ (match logs_file (self w) with
                        | Some f => _ | None => _ end))
    by (destruct (logs_file (self w)); by repeat constructor).
  rewrite (omap_none _ [LogDuration _]) by (by repeat constructor).
  rewrite (omap_none _ (if make_predictions (self w) then _ else _)).
  2:{ destruct (make_predictions (self w)); [|constructor].
      repeat apply Forall_app_2; try by repeat constructor.
      apply Forall_map, Forall_forall. by intros [??] _. }
  simpl.
  induction (zip (streamers (self w)) (original_streamers (self w)))
    as [|[l o] z IH]; [done|].
  simpl. rewrite omap_app, IH.
  unfold gained_lines, gain_entry; simpl.
  destruct (heap w !! l) as [s|]; [|done].
  destruct (heap w !! o); [|done].
  by destruct (history s).
Qed.

Lemma gain_entries (h : list Streamer) (ls os : list loc) :
  Forall2 (fun l o => is_Some (h !! l) /\ is_Some (h !! o)) ls os ->
  length (omap (gain_entry h) (zip ls os)) = length ls
  /\ forall i l o,
       ls !! i = Some l -> os !! i = Some o ->
       exists s s0,
         h !! l = Some s /\ h !! o = Some s0
         /\ omap (gain_entry h) (zip ls os) !! i
            = Some (s, channel_points s - channel_points s0).
Proof.
  induction 1 as [|l o ls os ([s Hs] & [s0 Hs0]) _ [IHlen IH]].
  - split; [done|]. by intros i l o.
  - assert (Hz : omap (gain_entry h) (zip (l :: ls) (o :: os))
                 = (s, channel_points s - channel_points s0)
                   :: omap (gain_entry h) (zip ls os)).
    { simpl. unfold gain_entry at 1. simpl. by rewrite Hs, Hs0. }
    rewrite Hz. split; [simpl; by rewrite IHlen|].
    intros [|i] l' o' Hl Ho; simpl in Hl, Ho.
    + simplify_eq. by exists s, s0.
    + by apply IH.
Qed.

Lemma paired_lookups (w : World) :
  paired w ->
  Forall2 (fun l o => is_Some (heap w !! l) /\ is_Some (heap w !! o))
    (streamers (self w)) (original_streamers (self w)).
Proof.
  intros Hp. eapply Forall2_impl; [exact Hp|].
  intros l o (s & s0 & -> & -> & _). eauto.
Qed.


(** C4.  Take the snapshot of line 100 and let the session go on in any
    way (any number of balance changes among the events).  The report
    printed then has one "Gained" line per streamer of the registry; the
    line at index [i] shows the streamer object as it is now and, as its
    difference, the balance of that object now minus the balance in
    snapshot entry [i], which is the balance the streamer had when the
    snapshot was taken. *)
Theorem gained_is_final_minus_snapshot (names : list string)
    (w w2 : World) :
  valid_refs w ->
  let w1 := after_snapshot E names w in
  rtc session_step w1 w2 ->
  exists lines,
    print_report w2 = (Ret tt, record_all lines w2)
    /\ length (gained_of lines) = length (streamers (self w1))
    /\ forall i l o,
         streamers (self w1) !! i = Some l ->
         original_streamers (self w1) !! i = Some o ->
         balance w1 o = balance w1 l
         /\ exists s,
              heap w2 !! l = Some s
              /\ gained_of lines !! i
                 = Some (s, channel_points s - balance w1 o).
Proof.
  intros Hv w1 Hreach.
  destruct (session_frame _ _ Hreach) as (Hs & Ho & Ht & Hid & Hother).
  assert (Hp : paired w2).
  { apply (paired_ext w1); try done. by apply after_snapshot_paired. }
  assert (Hstart : start_datetime (self w2) = Some (clock w)).
  { rewrite Ht. unfold w1. by rewrite after_snapshot_self. }
  exists (report_lines w2 (clock w)).
  split; [by apply print_report_eq|].
  rewrite gained_of_report.
  destruct (gain_entries (heap w2) _ _ (paired_lookups w2 Hp)) as [Hlen Hall].
  split; [by rewrite Hlen, Hs|].
  intros i l o Hl Hol.
  destruct (after_snapshot_heap names w Hv) as (h2 & ext & _ & _ & Hcopies).
  fold w1 in Hcopies. rewrite <- after_snapshot_streamers in Hcopies.
  fold w1 in Hcopies.
  destruct (Forall2_lookup_lr _ _ _ _ _ _ Hcopies Hl Hol) as (_ & _ & Heq).
  split; [unfold balance; by rewrite Heq|].
  rewrite <- Hs in Hl. rewrite <- Ho in Hol.
  destruct (Hall i l o Hl Hol) as (s & s0 & Hsl & Hso & Hentry).
  exists s. split; [done|]. rewrite Hentry.
  assert (Hsep : o ∉ streamers (self w1)).
  { apply (after_snapshot_separate names w Hv).
    rewrite Ho in Hol. by eapply list_elem_of_lookup_2. }
  unfold balance. rewrite <- (Hother o Hsep), Hso. done.
Qed.

End Session.

(** ** The properties on the sample data *)

Lemma fresh_valid : valid_refs fresh.
Proof. constructor. Qed.

Lemma waiting_started : waiting = started demo_env demo_names fresh.
Proof. unfold waiting, exec. by rewrite start_session_eq. Qed.

Lemma waiting_ready : ready waiting.
Proof. rewrite waiting_started. apply started_ready, fresh_valid. Qed.

Lemma after_points_reached :
  rtc session_step (after_snapshot demo_env demo_names fresh) after_points.
Proof.
  unfold after_points. rewrite waiting_started.
  etrans; [apply reach_started | apply reach_deliver].
Qed.

Lemma shutdown_order_witness :
  quit_error demo_env = None
  /\ pool_end_error demo_env = None
  /\ start_datetime (self waiting) = Some 1000
  /\ ready waiting
  /\ order_of_end (events_of (end_ demo_env 0) waiting).
Proof.
  split; [reflexivity|]. split; [reflexivity|]. split; [reflexivity|].
  split; [exact waiting_ready|].
  destruct (shutdown_order demo_env 0 1000 waiting
              eq_refl eq_refl eq_refl waiting_ready) as (_ & Horder & _).
  apply Horder. by eexists.
Defined.

Lemma spec_order_fails :
  ~ order_of_spec (events_of (end_ demo_env 0) waiting).
Proof.
  intros [(a & b & Ha & Hb & Hlt) _].
  vm_compute in Ha, Hb. injection Ha as <-. injection Hb as <-. lia.
Qed.

Lemma shutdown_repeats_witness :
  quit_error demo_env = None
  /\ pool_end_error demo_env = None
  /\ start_datetime (self waiting) = Some 1000
  /\ ready waiting
  /\ count_where is_report (events_of (end_ demo_env 1) waiting) = 2%nat.
Proof.
  split; [reflexivity|]. split; [reflexivity|]. split; [reflexivity|].
  split; [exact waiting_ready|].
  by destruct (shutdown_repeats demo_env 1 1000 waiting
                 eq_refl eq_refl eq_refl waiting_ready) as (Hrep & _).
Defined.

Lemma second_shutdown_is_not_a_noop :
  ~ (count_where is_report (events_of (end_ demo_env 1) waiting) = 1%nat
     /\ (count_where is_quit (events_of (end_ demo_env 1) waiting) <= 1)%nat
     /\ (count_where is_pool_end (events_of (end_ demo_env 1) waiting)
         <= 1)%nat
     /\ exec (end_ demo_env 0) (exec (end_ demo_env 0) waiting)
        = exec (end_ demo_env 0) waiting).
Proof. intros (H & _). vm_compute in H. discriminate. Qed.

Lemma shutdown_outcomes_witness :
  start_datetime (self waiting) = Some 1000
  /\ ready waiting
  /\ result (end_ demo_env 0) waiting = Raise (SystemExit 0)
  /\ count_where is_report (events_of (end_ demo_env 0) waiting) = 1%nat
  /\ end_ broken_quit_env 0 waiting
     = (Raise (WebDriverException "chrome not reachable"),
        record BrowserQuit waiting).
Proof.
  split; [reflexivity|]. split; [exact waiting_ready|].
  destruct (shutdown_outcomes demo_env 0 1000 waiting eq_refl waiting_ready)
    as (Hok & _).
  destruct (Hok eq_refl eq_refl) as (Hres & Hrep).
  split; [exact Hres|]. split; [exact Hrep|].
  destruct (shutdown_outcomes broken_quit_env 0 1000 waiting
              eq_refl waiting_ready) as (_ & Hquit & _).
  apply Hquit; [by eexists | reflexivity].
Defined.

Lemma shutdown_raises :
  result (end_ demo_env 0) fresh
  = Raise (AttributeError "'NoneType' object has no attribute 'end'")
  /\ count_where is_report (events_of (end_ demo_env 0) fresh) = O
  /\ result (end_ broken_quit_env 0) waiting
     = Raise (WebDriverException "chrome not reachable")
  /\ count_where is_report (events_of (end_ broken_quit_env 0) waiting) = O.
Proof. by vm_compute. Qed.

Lemma gained_is_final_minus_snapshot_witness :
  valid_refs fresh
  /\ rtc session_step (after_snapshot demo_env demo_names fresh) after_points
  /\ exists lines,
       print_report after_points = (Ret tt, record_all lines after_points)
       /\ length (gained_of lines) = 2%nat
       /\ exists s, gained_of lines !! 0%nat = Some (s, 40).
Proof.
  split; [exact fresh_valid|]. split; [exact after_points_reached|].
  destruct (gained_is_final_minus_snapshot demo_env demo_names fresh
              after_points fresh_valid after_points_reached)
    as (lines & Hprint & Hlen & Hall).
  exists lines. split; [exact Hprint|]. split; [exact Hlen|].
  destruct (Hall 0%nat 0%nat 2%nat eq_refl eq_refl)
    as (_ & s & Hs & Hentry).
  exists s. rewrite Hentry.
  vm_compute in Hs. injection Hs as <-. reflexivity.
Defined.

Lemma topics_registered_witness :
  running (self fresh) = false
  /\ submitted (events_of (run demo_env demo_names []) fresh)
     = topics_of demo_env (self (exec (run demo_env demo_names []) fresh))
  /\ In (StreamerTopic "raid" 1%nat)
       (submitted (events_of (run demo_env demo_names []) fresh)).
Proof.
  split; [reflexivity|].
  destruct (topics_registered demo_env demo_names fresh eq_refl)
    as (Hall & Hin).
  split; [exact Hall|].
  apply Hin. right. right. right. left.
  split; [reflexivity|]. exists 1%nat. split; [|reflexivity].
  vm_compute. tauto.
Defined.

Lemma unknown_names_are_skipped_witness :
  running (self fresh) = false
  /\ valid_refs fresh
  /\ result (run demo_env demo_names []) fresh = Blocked
  /\ not_found_logs (events_of (run demo_env demo_names []) fresh)
     = ["ghost"]
  /\ map username (live_streamers (exec (run demo_env demo_names []) fresh))
     = ["alice"; "bob"].
Proof.
  split; [reflexivity|]. split; [exact fresh_valid|].
  destruct (unknown_names_are_skipped demo_env demo_names fresh
              eq_refl fresh_valid) as (Hres & _ & _ & Hlogs & Hnames).
  split; [exact Hres|]. split; [exact Hlogs | exact Hnames].
Defined.

Lemma run_blocks_until_stopped_witness :
  running (self fresh) = false
  /\ Forall quiet [quiet_tick; points_tick]
  /\ result (run demo_env demo_names [quiet_tick; points_tick]) fresh
     = Blocked
  /\ result (run demo_env demo_names
               ([quiet_tick; points_tick] ++ flag_tick :: [quiet_tick]))
       fresh = Ret tt
  /\ result (run demo_env demo_names
               ([quiet_tick; points_tick] ++ signal_tick :: [quiet_tick]))
       fresh = Raise (SystemExit 0).
Proof.
  assert (Hq : Forall quiet [quiet_tick; points_tick])
    by (repeat constructor).
  split; [reflexivity|]. split; [exact Hq|].
  destruct (run_blocks_until_stopped demo_env demo_names
              [quiet_tick; points_tick] [quiet_tick] flag_tick fresh
              eq_refl Hq) as ((Hblocked & _) & Hflag & _).
  split; [exact Hblocked|].
  split.
  - destruct (Hflag eq_refl) as (Hrun & _).
    unfold result. by rewrite Hrun.
  - destruct (run_blocks_until_stopped demo_env demo_names
                [quiet_tick; points_tick] [quiet_tick] signal_tick fresh
                eq_refl Hq) as (_ & _ & Hsignal).
    by destruct (Hsignal O eq_refl fresh_valid eq_refl eq_refl).
Defined.

Lemma run_while_running_witness :
  running (self waiting) = true
  /\ self (exec (mine demo_env ["carol"] [quiet_tick]) waiting) = self waiting
  /\ heap (exec (mine demo_env ["carol"] [quiet_tick]) waiting) = heap waiting
  /\ events_of (mine demo_env ["carol"] [quiet_tick]) waiting
     = [LogError "You can't start multiple session of this istance!"].
Proof.
  split; [reflexivity|].
  destruct (run_while_running demo_env ["carol"] [quiet_tick] waiting
              eq_refl) as (_ & _ & _ & Hself & Hheap & _ & Hev).
  split; [exact Hself|]. split; [exact Hheap | exact Hev].
Defined.

Lemma names_are_not_normalized_witness :
  running (self fresh) = false
  /\ valid_refs fresh
  /\ strip (lower "Alice ") = strip (lower "alice")
  /\ channel_id_calls (events_of (run demo_env ["Alice "; "alice"] []) fresh)
     = ["Alice "; "alice"]
  /\ In "Alice "
       (map username
          (live_streamers (exec (run demo_env ["Alice "; "alice"] []) fresh)))
  /\ In "alice"
       (map username
          (live_streamers (exec (run demo_env ["Alice "; "alice"] []) fresh))).
Proof.
  split; [reflexivity|]. split; [exact fresh_valid|].
  split; [reflexivity|].
  destruct (names_are_not_normalized demo_env ["Alice "; "alice"] fresh
              eq_refl fresh_valid) as (Hcalls & _ & Hboth).
  split; [exact Hcalls|].
  apply (Hboth "Alice " "alice"); try reflexivity.
  - simpl. tauto.
  - simpl. tauto.
  - discriminate.
Defined.



(** ** Further properties of the methods *)

Section More.

Variable E : Env.

(** *** [end] on a miner that is not waiting *)

(** X1.  On a miner without a pool ([run] has not reached line 118),
    [end] quits the browser if there is one, clears both flags and then
    fails on [self.ws_pool.end()]: it leaves with [AttributeError], the
    pool is not ended, no report is printed and [sys.exit] is not
    reached. *)
Theorem end_without_a_pool (again : nat) (w : World) :
  ws_pool (self w) = None ->
  quit_error E = None ->
  result (end_ E again) w
  = Raise (AttributeError "'NoneType' object has no attribute 'end'")
  /\ events_of (end_ E again) w
     = match twitch_browser (self w) with
       | Some _ => [BrowserQuit]
       | None => []
       end ++ [AssignRunning false; AssignTwitchRunning false]
  /\ running (self (exec (end_ E again) w)) = false
  /\ tw_running (twitch (self (exec (end_ E again) w))) = false
  /\ heap (exec (end_ E again) w) = heap w.
Proof.
  intros Hpool Hq.
  assert (Hend : end_ E again w
    = (Raise (AttributeError "'NoneType' object has no attribute 'end'"),
       record_all
         (match twitch_browser (self w) with
          | Some _ => [BrowserQuit]
          | None => []
          end ++ [AssignRunning false; AssignTwitchRunning false])
         (stopped w)))
    by (destruct again; by apply end_without_pool).
  unfold result, events_of, exec. rewrite Hend. cbn [fst snd].
  split; [done|]. split; [|done].
  change (trace (record_all ?evs ?x)) with (trace x ++ evs).
  change (trace (stopped w)) with (trace w).
  apply drop_app_length.
Qed.

(** X2.  A shutdown signal that arrives before [run] was ever called
    finds [ws_pool] still [None]: whatever the constructor arguments,
    [end] only clears the two flags and leaves with [AttributeError]. *)
Theorem end_before_run (user : string) (betting raids : bool)
    (logger_settings : LoggerSettings) (browser_settings_ : BrowserSettings)
    (bet_settings_ : BetSettings) (now : Z) (again : nat) :
  let w := init E user betting raids logger_settings browser_settings_
             bet_settings_ now in
  result (end_ E again) w
  = Raise (AttributeError "'NoneType' object has no attribute 'end'")
  /\ events_of (end_ E again) w
     = [AssignRunning false; AssignTwitchRunning false].
Proof.
  intros w. destruct again; by vm_compute.
Qed.

Lemma rounds_heap (n : nat) (t0 : Z) (w : World) :
  heap (rounds n t0 w) = heap w.
Proof.
  revert w. induction n as [|n IH]; intros w; [done|].
  change (rounds (S n) t0 w) with (rounds n t0 (shutdown_round t0 w)).
  by rewrite IH.
Qed.

(** X3.  A successful [end] changes two attributes only, [running] and
    [twitch.running]: the browser and the pool it has released stay
    assigned ([twitch_browser] and [ws_pool] are not reset to [None]),
    and the registry, the snapshot and the streamer objects are as
    before. *)
Theorem end_keeps_attributes (again : nat) (t0 : Z) (w : World) :
  quit_error E = None ->
  pool_end_error E = None ->
  start_datetime (self w) = Some t0 ->
  ready w ->
  self (exec (end_ E again) w)
  = set_twitch {| tw_username := tw_username (twitch (self w));
                  tw_running := false |}
      (set_running false (self w))
  /\ twitch_browser (self (exec (end_ E again) w)) = twitch_browser (self w)
  /\ ws_pool (self (exec (end_ E again) w)) = ws_pool (self w)
  /\ heap (exec (end_ E again) w) = heap w.
Proof.
  intros Hq Hpe Ht Hr.
  unfold exec. rewrite (end_eq E again t0) by done.
  unfold shutdown. cbn [snd].
  change (self (record ?e ?x)) with (self x).
  change (heap (record ?e ?x)) with (heap x).
  rewrite rounds_self, rounds_heap. by repeat split.
Qed.

(** *** The registry and the snapshot when [run] starts waiting *)

Lemma refresh_alter (l : loc) (h : list Streamer) :
  refresh E l h = alter (refreshed E) l h.
Proof.
  unfold refresh, refreshed. revert l.
  induction h as [|s h IH]; intros [|l]; simpl; try done.
  f_equal. apply IH.
Qed.

Lemma refreshed_idem (s : Streamer) :
  refreshed E (refreshed E s) = refreshed E s.
Proof. by destruct s. Qed.

Lemma foldl_refresh_stable (ls : list loc) (h : list Streamer) (l : loc)
    (s : Streamer) :
  h !! l = Some s -> refreshed E s = s ->
  foldl (fun h' a => refresh E a h') h ls !! l = Some s.
Proof.
  revert h. induction ls as [|a ls IH]; intros h Hl Hs; [done|].
  simpl. apply IH; [|done]. rewrite refresh_alter.
  destruct (decide (a = l)) as [->|Hne].
  - rewrite list_lookup_alter_eq, Hl. simpl. by rewrite Hs.
  - by rewrite list_lookup_alter_ne.
Qed.

Lemma foldl_refresh_lookup (ls : list loc) (h : list Streamer) (l : loc)
    (s : Streamer) :
  l ∈ ls -> h !! l = Some s ->
  foldl (fun h' a => refresh E a h') h ls !! l = Some (refreshed E s).
Proof.
  revert h. induction ls as [|a ls IH]; intros h Hin Hl.
  - by apply elem_of_nil in Hin.
  - simpl. destruct (decide (a = l)) as [->|Hne].
    + apply foldl_refresh_stable; [|apply refreshed_idem].
      by rewrite refresh_alter, list_lookup_alter_eq, Hl.
    + apply elem_of_cons in Hin as [->|Hin]; [done|].
      apply IH; [done|]. by rewrite refresh_alter, list_lookup_alter_ne.
Qed.

Lemma omap_on_elements {A B} (f g : A -> option B) (l : list A) :
  (forall x, x ∈ l -> f x = g x) -> omap f l = omap g l.
Proof.
  induction l as [|x l IH]; intros H; simpl; [done|].
  rewrite (H x) by apply list_elem_of_here.
  destruct (g x); [f_equal|];
    apply IH; intros y Hy; apply H; by apply list_elem_of_further.
Qed.

Lemma omap_fmap_lookup (f : Streamer -> Streamer) (h : list Streamer)
    (ls : list loc) :
  omap (fun l => f <$> h !! l) ls = map f (omap (fun l => h !! l) ls).
Proof.
  induction ls as [|l ls IH]; simpl; [done|].
  destruct (h !! l); simpl; [f_equal|]; exact IH.
Qed.

(** The heap at the snapshot: the refreshed objects, then the copies. *)
Lemma after_snapshot_objects (names : list string) (w : World) :
  valid_refs w ->
  exists ext,
    heap (after_snapshot E names w)
    = foldl (fun h' a => refresh E a h')
        (heap w ++ resolved_streamers E names) (registry_after E names w)
      ++ ext
    /\ Forall2 (fun l c =>
         heap (after_snapshot E names w) !! c
         = heap (after_snapshot E names w) !! l)
         (registry_after E names w)
         (original_streamers (self (after_snapshot E names w))).
Proof.
  intros Hv. unfold after_snapshot.
  set (w1 := resolve E names (begin w)).
  set (w2 := load E (streamers (self w1)) w1).
  destruct (snapshot_spec w2) as (Hself & Hheap & _).
  rewrite Hself, Hheap. simpl.
  assert (Hw1s : streamers (self w1) = registry_after E names w).
  { unfold w1. destruct (resolve_spec E names (begin w)) as (-> & _ & _).
    destruct (begin_spec w) as (-> & -> & _). reflexivity. }
  assert (Hw2s : streamers (self w2) = registry_after E names w).
  { unfold w2. by destruct (load_spec E (streamers (self w1)) w1)
      as (-> & _ & _). }
  assert (Hw2h : heap w2
    = foldl (fun h' a => refresh E a h')
        (heap w ++ resolved_streamers E names) (registry_after E names w)).
  { unfold w2. destruct (load_spec E (streamers (self w1)) w1)
      as (_ & -> & _).
    rewrite Hw1s. unfold w1.
    destruct (resolve_spec E names (begin w)) as (_ & -> & _).
    by destruct (begin_spec w) as (_ & -> & _). }
  rewrite Hw2s.
  destruct (deepcopy (heap w2) (registry_after E names w)) as [cs h3] eqn:Hcopy.
  simpl.
  destruct (deepcopy_from_spec (length (heap w2)) (registry_after E names w)
              [] (heap w2) cs h3) as [[ext ->] Hall]; try done.
  - rewrite Hw2h.
    rewrite (identity_length _ _ (foldl_refresh_identity E _ _)).
    by apply registry_after_bound.
  - exists ext. split; [by rewrite Hw2h|].
    eapply Forall2_impl; [exact Hall|]. by intros l c (_ & _ & ?).
Qed.

(** X4.  When [run] starts waiting, the registry holds the streamers it
    held before followed by one new streamer per configured name that
    resolves (in order, repeated names included), and every one of them
    carries the balance and the online flag the collaborator stored for
    its channel at lines 98-99. *)
Theorem registry_when_waiting (names : list string) (w : World) :
  running (self w) = false ->
  valid_refs w ->
  live_streamers (exec (run E names []) w)
  = map (refreshed E) (live_streamers w ++ resolved_streamers E names).
Proof.
  intros Hr Hv. unfold exec. rewrite run_reaches_loop by done. cbn [snd].
  unfold live_streamers.
  destruct (started_self E names w) as (-> & _ & _ & _ & _ & _ & _ & ->).
  destruct (after_snapshot_objects names w Hv) as (ext & -> & _).
  pose proof (registry_after_bound E names w Hv) as Hb.
  rewrite (omap_on_elements _
    (fun l => refreshed E <$> (heap w ++ resolved_streamers E names) !! l)).
  2:{ intros l Hl. rewrite Forall_forall in Hb.
      destruct (lookup_lt_is_Some_2 _ _ (Hb l Hl)) as [s Hs].
      rewrite Hs. simpl.
      apply lookup_app_l_Some. by apply foldl_refresh_lookup. }
  rewrite omap_fmap_lookup. f_equal.
  unfold registry_after. rewrite omap_app.
  by rewrite omap_lookup_old, omap_lookup_new.
Qed.

Lemma omap_copies (h : list Streamer) (ls cs : list loc) :
  Forall2 (fun l c => h !! c = h !! l) ls cs ->
  omap (fun c => h !! c) cs = omap (fun l => h !! l) ls.
Proof.
  induction 1 as [|l c ls cs Heq _ IH]; simpl; [done|].
  rewrite Heq. destruct (h !! l); [f_equal|]; exact IH.
Qed.

(** X5.  When [run] starts waiting, the snapshot is a field-by-field
    copy of the registry (balance, online flag and history included),
    entry by entry, held in objects of its own: no snapshot object is a
    registry object. *)
Theorem snapshot_when_waiting (names : list string) (w : World) :
  running (self w) = false ->
  valid_refs w ->
  let w1 := exec (run E names []) w in
  snapshot_streamers w1 = live_streamers w1
  /\ length (original_streamers (self w1)) = length (streamers (self w1))
  /\ forall o, o ∈ original_streamers (self w1) -> o ∉ streamers (self w1).
Proof.
  intros Hr Hv w1.
  assert (Hw1 : w1 = started E names w).
  { unfold w1, exec. by rewrite run_reaches_loop. }
  rewrite Hw1. unfold snapshot_streamers, live_streamers.
  destruct (started_self E names w) as (Hs & Ho & _ & _ & _ & _ & _ & Hh).
  rewrite Hs, Ho, Hh.
  destruct (after_snapshot_objects names w Hv) as (ext & _ & Hall).
  split; [by apply omap_copies|].
  split; [symmetry; by eapply Forall2_length|].
  rewrite <- (after_snapshot_streamers E names w).
  by apply after_snapshot_separate.
Qed.

(** *** What [run] does before it waits *)

Lemma resolved_length (names : list string) :
  length (resolved_streamers E names)
  = length (List.filter (resolvable E) names).
Proof. by rewrite <- (resolved_usernames E names), length_map. Qed.

(** X6.  Up to its waiting loop [run] does, in this order: the start
    line, the flag, the login; for each configured name a sleep, the
    lookup and, when it fails, the "does not exist" line; for each
    streamer of the registry a sleep, the points context and the online
    check; the browser start-up when betting is enabled; the thread
    start; the pool; one submission per topic.  Nothing else is called
    or logged. *)
Theorem run_trace (names : list string) (w : World) :
  running (self w) = false ->
  events_of (run E names []) w
  = [LogStartSession (session_id (self w)); AssignRunning true; Login]
    ++ flat_map (fun n =>
         [SleepJitter; GetChannelId n]
         ++ match get_channel_id E n with
            | Some _ => []
            | None => [LogDoesNotExist n]
            end) names
    ++ flat_map (fun l =>
         [SleepJitter; LoadChannelPointsContext l; CheckStreamerOnline l])
         (streamers (self w)
          ++ seq (length (heap w))
               (length (List.filter (resolvable E) names)))
    ++ (if make_predictions (self w) then [BrowserInit] else [])
    ++ [ThreadStart; PoolCreate]
    ++ map Submit (topics_of E (self (exec (run E names []) w))).
Proof.
  intros Hr. rewrite run_events by done.
  unfold exec. rewrite run_reaches_loop by done. cbn [snd].
  unfold session_events, registry_after. by rewrite resolved_length.
Qed.

Lemma topics_of_length (m : Miner) :
  length (topics_of E m) = topic_count m (length (streamers m)).
Proof.
  unfold topics_of, topic_count. rewrite !length_app.
  assert (Hflat : forall ls : list loc,
    length (flat_map (fun streamer =>
       [StreamerTopic "video-playback-by-id" streamer]
       ++ (if follow_raid m then [StreamerTopic "raid" streamer] else [])
       ++ (if make_predictions m
           then [StreamerTopic "predictions-channel-v1" streamer] else []))
       ls)
    = (length ls
       * (1 + Nat.b2n (follow_raid m) + Nat.b2n (make_predictions m)))%nat).
  { induction ls as [|l ls IH]; [done|].
    cbn [flat_map]. rewrite length_app, IH.
    destruct (follow_raid m), (make_predictions m); simpl; lia. }
  rewrite Hflat.
  destruct (follow_raid m), (make_predictions m); simpl; lia.
Qed.

(** X7.  [run] submits one account topic, one more when betting is
    enabled, and per streamer of the registry one topic plus one for
    raids and one for predictions when those are enabled; the registry
    it counts is the old one plus every configured name that resolves. *)
Theorem topics_submitted_count (names : list string) (w : World) :
  running (self w) = false ->
  length (submitted (events_of (run E names []) w))
  = topic_count (self w)
      (length (streamers (self w))
       + length (List.filter (resolvable E) names)).
Proof.
  intros Hr. rewrite run_events, submitted_session, topics_of_length by done.
  destruct (started_self E names w) as (Hs & _ & _ & _ & Hmp & Hfr & _).
  unfold topic_count. rewrite Hs, Hmp, Hfr.
  unfold registry_after.
  by rewrite length_app, length_seq, resolved_length.
Qed.

(** X8.  The attributes of the miner when [run] starts waiting: the flag
    is set and the start time is the time of the call; a browser has
    been created from the auth token, the session id and the browser
    settings exactly when betting is enabled (otherwise the attribute is
    untouched); the thread is a started daemon; the pool was built with
    that browser and the bet settings; the configuration, the session
    id, the log file and the prediction events are as before. *)
Theorem attributes_when_waiting (names : list string) (w : World) :
  running (self w) = false ->
  let m := self w in
  let m' := self (exec (run E names []) w) in
  running m' = true
  /\ start_datetime m' = Some (clock w)
  /\ twitch_browser m'
     = (if make_predictions m
        then Some {| tb_auth_token := get_auth_token E;
                     tb_session_id := session_id m;
                     tb_settings := browser_settings m |}
        else twitch_browser m)
  /\ minute_watcher_thread m' = Some {| daemon := true; is_alive := true |}
  /\ ws_pool m'
     = Some {| pool_browser := twitch_browser m';
               pool_bet_settings := bet_settings m |}
  /\ twitch m' = twitch m
  /\ follow_raid m' = follow_raid m
  /\ make_predictions m' = make_predictions m
  /\ events_predictions m' = events_predictions m
  /\ browser_settings m' = browser_settings m
  /\ bet_settings m' = bet_settings m
  /\ session_id m' = session_id m
  /\ logs_file m' = logs_file m.
Proof.
  intros Hr m m'. unfold m', exec.
  rewrite run_reaches_loop by done. cbn [snd].
  unfold started, activities.
  destruct (make_predictions (self (after_snapshot E names w))) eqn:Hmp;
    rewrite after_snapshot_self in Hmp; simpl in Hmp; fold m in Hmp;
    rewrite Hmp; simpl; rewrite after_snapshot_self; by repeat split.
Qed.

(** *** A signal whose handler fails *)

Lemma deliver_keeps (evs : list session_event) (w : World) :
  twitch_browser (self (deliver evs w)) = twitch_browser (self w)
  /\ twitch (self (deliver evs w)) = twitch (self w).
Proof.
  revert w. induction evs as [|e evs IH]; intros w; [done|].
  change (deliver (e :: evs) w) with (deliver evs (deliver_event e w)).
  destruct (IH (deliver_event e w)) as (-> & ->).
  by destruct e.
Qed.

Lemma idle_keeps (ticks : list tick) (w : World) :
  twitch_browser (self (idle ticks w)) = twitch_browser (self w)
  /\ twitch (self (idle ticks w)) = twitch (self w).
Proof.
  revert w. induction ticks as [|t ticks IH]; intros w; [done|].
  change (idle (t :: ticks) w) with (idle ticks (poll t w)).
  destruct (IH (poll t w)) as (-> & ->). unfold poll.
  by destruct (deliver_keeps (arrivals t) (advance 1500 (record SleepPoll w)))
    as (-> & ->).
Qed.

(** X9.  When betting is enabled and [browser.quit()] raises while a
    signal is handled during the wait, the exception leaves [run]: the
    handler stops at line 159, so [running] and [twitch.running] keep
    their values, the pool is not ended and nothing after the failed
    call is logged. *)
Theorem signal_with_failing_quit (names : list string)
    (ticks rest : list tick) (t : tick) (again : nat) (e : exn)
    (w : World) :
  running (self w) = false ->
  make_predictions (self w) = true ->
  Forall quiet ticks ->
  action t = Signal again ->
  quit_error E = Some e ->
  run E names (ticks ++ t :: rest) w
  = (Raise e, record BrowserQuit (poll t (idle ticks (started E names w))))
  /\ running (self (exec (run E names (ticks ++ t :: rest)) w)) = true
  /\ twitch (self (exec (run E names (ticks ++ t :: rest)) w))
     = twitch (self w).
Proof.
  intros Hr Hmp Hq Ht Hquit.
  assert (Hrun : running (self (started E names w)) = true)
    by (by destruct (started_self E names w) as (_ & _ & -> & _)).
  assert (Hidle : running (self (idle ticks (started E names w))) = true).
  { by destruct (idle_spec ticks (started E names w))
      as (_ & _ & _ & _ & -> & _). }
  assert (Hb : is_Some (twitch_browser
                 (self (poll t (idle ticks (started E names w)))))).
  { unfold poll.
    destruct (deliver_keeps (arrivals t)
                (advance 1500
                   (record SleepPoll (idle ticks (started E names w)))))
      as (-> & _).
    change (twitch_browser (self (advance ?ms (record ?ev ?x))))
      with (twitch_browser (self x)).
    destruct (idle_keeps ticks (started E names w)) as (-> & _).
    unfold started, activities.
    replace (make_predictions (self (after_snapshot E names w))) with true
      by (by rewrite after_snapshot_self). by eexists. }
  assert (Heq : run E names (ticks ++ t :: rest) w
    = (Raise e,
       record BrowserQuit (poll t (idle ticks (started E names w))))).
  { rewrite run_eq, wait_loop_quiet, wait_loop_tick by done.
    rewrite Ht. erewrite bind_raise; [reflexivity|].
    destruct again; by apply end_quit_fails. }
  split; [done|]. unfold exec. rewrite Heq. cbn [snd].
  change (self (record ?ev ?x)) with (self x).
  destruct (poll_spec t (idle ticks (started E names w)))
    as (_ & _ & _ & _ & -> & _).
  split; [done|]. unfold poll.
  destruct (deliver_keeps (arrivals t)
              (advance 1500
                 (record SleepPoll (idle ticks (started E names w)))))
    as (_ & ->).
  change (twitch (self (advance ?ms (record ?ev ?x))))
    with (twitch (self x)).
  destruct (idle_keeps ticks (started E names w)) as (_ & ->).
  unfold started, activities.
  destruct (make_predictions (self (after_snapshot E names w))); simpl;
    by rewrite after_snapshot_self.
Qed.

(** *** A second session on the same miner *)

Lemma valid_refs_ext (w w' : World) :
  streamers (self w') = streamers (self w) ->
  identity <$> heap w' = identity <$> heap w ->
  valid_refs w -> valid_refs w'.
Proof.
  unfold valid_refs. intros -> Hid Hv.
  eapply Forall_impl; [exact Hv|]. intros l [s Hs].
  destruct (identity_lookup _ _ _ _ Hid Hs) as (s' & Hs' & _). by eexists.
Qed.

Lemma usernames_ext (w w' : World) :
  streamers (self w') = streamers (self w) ->
  identity <$> heap w' = identity <$> heap w ->
  valid_refs w ->
  map username (live_streamers w') = map username (live_streamers w).
Proof.
  unfold live_streamers. intros -> Hid Hv.
  rewrite <- (app_nil_r (heap w')).
  apply usernames_extend; [done|].
  eapply Forall_impl; [exact Hv|]. intros l [s Hs]; simpl.
  by apply lookup_lt_Some in Hs.
Qed.

Lemma started_valid (names : list string) (w : World) :
  valid_refs w -> valid_refs (started E names w).
Proof.
  intros Hv. unfold valid_refs.
  destruct (started_self E names w) as (-> & _ & _ & _ & _ & _ & _ & ->).
  destruct (after_snapshot_heap E names w Hv) as (h2 & ext & -> & Hid & _).
  pose proof (registry_after_bound E names w Hv) as Hb.
  rewrite <- (identity_length _ _ Hid) in Hb.
  eapply Forall_impl; [exact Hb|]. intros l Hl; simpl in Hl.
  destruct (lookup_lt_is_Some_2 _ _ Hl) as [s Hs].
  exists s. by apply lookup_app_l_Some.
Qed.

Lemma started_session_id (names : list string) (w : World) :
  session_id (self (started E names w)) = session_id (self w).
Proof.
  unfold started, activities.
  destruct (make_predictions (self (after_snapshot E names w))); simpl;
    by rewrite after_snapshot_self.
Qed.

Lemma deliver_session_id (evs : list session_event) (w : World) :
  session_id (self (deliver evs w)) = session_id (self w).
Proof.
  revert w. induction evs as [|e evs IH]; intros w; [done|].
  change (deliver (e :: evs) w) with (deliver evs (deliver_event e w)).
  rewrite IH. by destruct e.
Qed.

Lemma idle_session_id (ticks : list tick) (w : World) :
  session_id (self (idle ticks w)) = session_id (self w).
Proof.
  revert w. induction ticks as [|t ticks IH]; intros w; [done|].
  change (idle (t :: ticks) w) with (idle ticks (poll t w)).
  rewrite IH. unfold poll. by rewrite deliver_session_id.
Qed.

(** X10.  [run] can be called again once it has returned (another
    thread cleared the flag).  The second call does not start from an
    empty registry: the streamers of the first session stay, the names
    of the second call are appended, so a name configured in both calls
    is registered twice; the session id is the one [__init__] drew. *)
Theorem run_again (names1 names2 : list string) (ticks : list tick)
    (t : tick) (w : World) :
  running (self w) = false ->
  valid_refs w ->
  Forall quiet ticks ->
  action t = FlagCleared ->
  let w1 := exec (run E names1 (ticks ++ [t])) w in
  result (run E names1 (ticks ++ [t])) w = Ret tt
  /\ running (self w1) = false
  /\ result (run E names2 []) w1 = Blocked
  /\ map username (live_streamers (exec (run E names2 []) w1))
     = map username (live_streamers w)
       ++ List.filter (resolvable E) names1
       ++ List.filter (resolvable E) names2
  /\ session_id (self (exec (run E names2 []) w1)) = session_id (self w).
Proof.
  intros Hr Hv Hq Ht w1.
  assert (Hrun : running (self (started E names1 w)) = true)
    by (by destruct (started_self E names1 w) as (_ & _ & -> & _)).
  assert (Hidle : running (self (idle ticks (started E names1 w))) = true).
  { by destruct (idle_spec ticks (started E names1 w))
      as (_ & _ & _ & _ & -> & _). }
  assert (Hfirst : run E names1 (ticks ++ [t]) w
    = (Ret tt,
       on_self (set_running false)
         (poll t (idle ticks (started E names1 w))))).
  { rewrite run_eq, wait_loop_quiet, wait_loop_tick by done.
    rewrite Ht. step. by rewrite wait_loop_stopped. }
  assert (Hw1 : w1 = on_self (set_running false)
                       (poll t (idle ticks (started E names1 w))))
    by (unfold w1, exec; by rewrite Hfirst).
  assert (Hs1 : streamers (self w1) = streamers (self (started E names1 w))).
  { rewrite Hw1. change (streamers (self (on_self ?f ?x)))
      with (streamers (self x)).
    destruct (poll_spec t (idle ticks (started E names1 w)))
      as (-> & _).
    by destruct (idle_spec ticks (started E names1 w)) as (-> & _). }
  assert (Hid1 : identity <$> heap w1
                 = identity <$> heap (started E names1 w)).
  { rewrite Hw1. change (heap (on_self ?f ?x)) with (heap x).
    destruct (poll_spec t (idle ticks (started E names1 w)))
      as (_ & _ & _ & _ & _ & ->).
    by destruct (idle_spec ticks (started E names1 w))
      as (_ & _ & _ & _ & _ & ->). }
  assert (Hv1 : valid_refs w1).
  { apply (valid_refs_ext (started E names1 w)); try done.
    by apply started_valid. }
  assert (Hr1 : running (self w1) = false) by (by rewrite Hw1).
  unfold result. rewrite Hfirst. cbn [fst].
  split; [done|]. split; [done|].
  unfold exec. rewrite (run_reaches_loop E names2 w1) by done.
  cbn [fst snd]. split; [done|]. split.
  - rewrite started_usernames by done.
    rewrite (usernames_ext (started E names1 w) w1) by
      (try done; by apply started_valid).
    rewrite started_usernames by done. by rewrite <- app_assoc.
  - rewrite started_session_id, Hw1.
    change (session_id (self (on_self ?f ?x))) with (session_id (self x)).
    unfold poll. rewrite deliver_session_id.
    change (session_id (self (advance ?ms (record ?ev ?x))))
      with (session_id (self x)).
    by rewrite idle_session_id, started_session_id.
Qed.

(** *** The sections of the report *)

Lemma report_events (w : World) (t0 : Z) :
  start_datetime (self w) = Some t0 ->
  paired w ->
  events_of print_report w = report_lines w t0.
Proof.
  intros Ht Hp. apply events_of_app. unfold exec.
  by rewrite (print_report_eq w t0).
Qed.

Lemma report_observed {B} (f : event -> option B) (w : World) (t0 : Z) :
  f (PrintLine "\n") = None ->
  f (PrintLine "") = None ->
  (forall sid, f (LogEndSession sid) = None) ->
  (forall file, f (LogLogsFile file) = None) ->
  (forall ms, f (LogDuration ms) = None) ->
  omap f (report_lines w t0)
  = (if make_predictions (self w)
     then omap f
            (LogBetSettings (bet_settings (self w))
             :: map (fun '(event_id, recap) => LogRecap event_id recap)
                  (events_predictions (self w)))
     else [])
    ++ omap f (flat_map (gained_lines (heap w))
                 (zip (streamers (self w)) (original_streamers (self w)))).
Proof.
  intros H1 H2 H3 H4 H5. unfold report_lines. rewrite !omap_app.
  rewrite (omap_none f [PrintLine "\n"; LogEndSession _])
    by (by repeat constructor).
  rewrite (omap_none f (match logs_file (self w) with
                        | Some file => _ | None => _ end))
    by (destruct (logs_file (self w)); by repeat constructor).
  rewrite (omap_none f [LogDuration _]) by (by repeat constructor).
  rewrite !app_nil_l. f_equal.
  destruct (make_predictions (self w)); [|done].
  change ([PrintLine ""; LogBetSettings (bet_settings (self w))])
    with ([PrintLine ""] ++ [LogBetSettings (bet_settings (self w))]).
  rewrite <- app_assoc, !omap_app.
  rewrite !(omap_none f [PrintLine ""]) by (by repeat constructor).
  rewrite app_nil_r, app_nil_l.
  change (LogBetSettings (bet_settings (self w))
          :: map (fun '(event_id, recap) => LogRecap event_id recap)
               (events_predictions (self w)))
    with ([LogBetSettings (bet_settings (self w))]
          ++ map (fun '(event_id, recap) => LogRecap event_id recap)
               (events_predictions (self w))).
  by rewrite omap_app.
Qed.

Lemma recaps_of_map (d : list (string * string)) :
  recaps_of (map (fun '(event_id, recap) => LogRecap event_id recap) d) = d.
Proof.
  unfold recaps_of. induction d as [|[id recap] d IH]; simpl; [done|].
  f_equal. exact IH.
Qed.

Lemma gained_lines_observed (h : list Streamer) (ls os : list loc) :
  Forall2 (fun l o => is_Some (h !! l) /\ is_Some (h !! o)) ls os ->
  recaps_of (flat_map (gained_lines h) (zip ls os)) = []
  /\ bet_settings_of (flat_map (gained_lines h) (zip ls os)) = []
  /\ histories_of (flat_map (gained_lines h) (zip ls os))
     = List.filter has_history (omap (fun l => h !! l) ls)
  /\ map fst (gained_of (flat_map (gained_lines h) (zip ls os)))
     = omap (fun l => h !! l) ls.
Proof.
  unfold recaps_of, bet_settings_of, histories_of, gained_of.
  induction 1 as [|l o ls os ([s Hs] & [s0 Hs0]) _ (IH1 & IH2 & IH3 & IH4)];
    [done|].
  change (zip (l :: ls) (o :: os)) with ((l, o) :: zip ls os).
  change (flat_map (gained_lines h) ((l, o) :: zip ls os))
    with (gained_lines h (l, o) ++ flat_map (gained_lines h) (zip ls os)).
  rewrite !omap_app, map_app, IH1, IH2, IH3, IH4.
  unfold gained_lines. cbn [fst snd]. rewrite Hs, Hs0.
  destruct (history s) eqn:Hh; simpl; rewrite Hs; simpl;
    unfold has_history; rewrite ?Hh; done.
Qed.

(** X11.  The report has a betting section exactly when betting is
    enabled: the bet settings and one recap per recorded prediction
    event, in the order of the dict.  It then has one "Gained" line per
    streamer of the registry, in order, each followed by the history of
    that streamer exactly when its history is not empty. *)
Theorem report_sections (w : World) (t0 : Z) :
  start_datetime (self w) = Some t0 ->
  paired w ->
  result print_report w = Ret tt
  /\ bet_settings_of (events_of print_report w)
     = (if make_predictions (self w) then [bet_settings (self w)] else [])
  /\ recaps_of (events_of print_report w)
     = (if make_predictions (self w)
        then events_predictions (self w) else [])
  /\ map fst (gained_of (events_of print_report w)) = live_streamers w
  /\ histories_of (events_of print_report w)
     = List.filter has_history (live_streamers w).
Proof.
  intros Ht Hp. rewrite (report_events w t0) by done.
  split; [unfold result; by rewrite (print_report_eq w t0)|].
  destruct (gained_lines_observed (heap w) _ _ (paired_lookups w Hp))
    as (Hrec & Hbets & Hhist & Hgain).
  unfold bet_settings_of, recaps_of, histories_of, gained_of in *.
  rewrite !report_observed by done. rewrite map_app.
  rewrite Hrec, Hbets, Hhist, Hgain, !app_nil_r.
  unfold live_streamers.
  assert (Hno : forall B (f : event -> option B),
            (forall event_id recap, f (LogRecap event_id recap) = None) ->
            omap f (map (fun '(event_id, recap) => LogRecap event_id recap)
                      (events_predictions (self w))) = []).
  { intros B f Hf. apply omap_none, Forall_map, Forall_forall.
    by intros [??] _. }
  destruct (make_predictions (self w)).
  - change (LogBetSettings (bet_settings (self w))
            :: map (fun '(event_id, recap) => LogRecap event_id recap)
                 (events_predictions (self w)))
      with ([LogBetSettings (bet_settings (self w))]
            ++ map (fun '(event_id, recap) => LogRecap event_id recap)
                 (events_predictions (self w))).
    rewrite !omap_app. simpl.
    split; [by rewrite Hno|]. split; [apply recaps_of_map|].
    split; by rewrite Hno.
  - by repeat split.
Qed.

(** *** A whole session *)

Lemma poll_trace (t : tick) (w : World) :
  trace (poll t w) = trace w ++ [SleepPoll].
Proof.
  unfold poll.
  by destruct (deliver_spec (arrivals t) (advance 1500 (record SleepPoll w)))
    as (_ & _ & _ & _ & _ & _ & -> & _).
Qed.

Lemma idle_trace (ticks : list tick) (w : World) :
  trace (idle ticks w) = trace w ++ repeat SleepPoll (length ticks).
Proof.
  revert w. induction ticks as [|t ticks IH]; intros w.
  - simpl. by rewrite app_nil_r.
  - change (idle (t :: ticks) w) with (idle ticks (poll t w)).
    rewrite IH, poll_trace. simpl. by rewrite <- app_assoc.
Qed.

Lemma session_events_counts (names : list string) (w : World) :
  count_where is_report (session_events E names w) = O
  /\ count_where is_pool_end (session_events E names w) = O.
Proof.
  assert (H : Forall (fun e => is_report e = false /\ is_pool_end e = false)
                (session_events E names w)).
  { unfold session_events. repeat apply Forall_app_2.
    - by repeat constructor.
    - apply Forall_flat_map, Forall_forall. intros n _.
      unfold resolve_events.
      destruct (get_channel_id E n); by repeat constructor.
    - apply Forall_flat_map, Forall_forall. intros l _.
      by repeat constructor.
    - destruct (make_predictions (self w)); by repeat constructor.
    - by repeat constructor.
    - apply Forall_map, Forall_forall. by intros t _. }
  split; apply count_where_none;
    (eapply Forall_impl; [exact H|]); by intros e [? ?].
Qed.

Lemma polls_counts (n : nat) :
  count_where is_report (repeat SleepPoll n) = O
  /\ count_where is_pool_end (repeat SleepPoll n) = O.
Proof.
  split; apply count_where_none, Forall_forall; intros e He;
    apply list_elem_of_In in He; by apply repeat_spec in He as ->.
Qed.

(** X12.  A session that is interrupted by a signal: its trace is the
    start-up of [run], then one sleep of the waiting loop per tick up to
    and including the one in which the signal arrives, then what [end]
    does; [run] leaves with the [SystemExit] of [end]; the report is
    printed and the pool ended once per invocation of the handler, and
    nowhere else in the session. *)
Theorem interrupted_session (names : list string) (ticks rest : list tick)
    (t : tick) (again : nat) (w : World) :
  running (self w) = false ->
  valid_refs w ->
  Forall quiet ticks ->
  action t = Signal again ->
  quit_error E = None ->
  pool_end_error E = None ->
  result (run E names (ticks ++ t :: rest)) w = Raise (SystemExit 0)
  /\ events_of (run E names (ticks ++ t :: rest)) w
     = session_events E names w
       ++ repeat SleepPoll (S (length ticks))
       ++ events_of (end_ E again) (poll t (idle ticks (started E names w)))
  /\ count_where is_report (events_of (run E names (ticks ++ t :: rest)) w)
     = S again
  /\ count_where is_pool_end
       (events_of (run E names (ticks ++ t :: rest)) w) = S again.
Proof.
  intros Hr Hv Hq Ht Hquit Hpool.
  set (W := poll t (idle ticks (started E names w))).
  assert (Hrun : running (self (started E names w)) = true)
    by (by destruct (started_self E names w) as (_ & _ & -> & _)).
  assert (Hidle : running (self (idle ticks (started E names w))) = true).
  { by destruct (idle_spec ticks (started E names w))
      as (_ & _ & _ & _ & -> & _). }
  assert (HW : ready W)
    by (by apply poll_ready, idle_ready, started_ready).
  assert (HtW : start_datetime (self W) = Some (clock w)).
  { unfold W.
    destruct (poll_spec t (idle ticks (started E names w)))
      as (_ & _ & _ & -> & _).
    destruct (idle_spec ticks (started E names w)) as (_ & _ & _ & -> & _).
    by destruct (started_self E names w) as (_ & _ & _ & -> & _). }
  assert (Heq : run E names (ticks ++ t :: rest) w = end_ E again W).
  { rewrite run_eq, wait_loop_quiet, wait_loop_tick by done.
    rewrite Ht. fold W. erewrite bind_raise; [|by apply (end_eq E again (clock w))].
    by rewrite (end_eq E again (clock w)). }
  assert (HtraceW : trace W
    = trace w ++ session_events E names w
      ++ repeat SleepPoll (S (length ticks))).
  { unfold W. rewrite poll_trace, idle_trace, started_trace.
    rewrite <- !app_assoc. do 2 f_equal.
    change (S (length ticks)) with (length (t :: ticks)).
    clear. induction ticks as [|t' ticks IH]; [done|].
    simpl. f_equal. exact IH. }
  destruct (rounds_counts (S again) (clock w) W)
    as (evs & Hevs & _).
  assert (HendW : trace (exec (end_ E again) W)
                  = trace W ++ evs ++ [SysExit 0]).
  { unfold exec. rewrite (end_eq E again (clock w)) by done.
    unfold shutdown. cbn [snd].
    change (trace (record ?e ?x)) with (trace x ++ [e]).
    rewrite Hevs. by rewrite <- app_assoc. }
  assert (Hend_ev : events_of (end_ E again) W = evs ++ [SysExit 0])
    by (by apply events_of_app).
  assert (Hev : events_of (run E names (ticks ++ t :: rest)) w
    = session_events E names w ++ repeat SleepPoll (S (length ticks))
      ++ events_of (end_ E again) W).
  { apply events_of_app. unfold exec at 1. rewrite Heq.
    fold (exec (end_ E again) W). rewrite HendW, HtraceW, Hend_ev.
    by rewrite <- !app_assoc. }
  split; [unfold result; rewrite Heq; by rewrite (end_eq E again (clock w))|].
  split; [exact Hev|].
  destruct (end_counts E again (clock w) W Hquit Hpool HtW HW)
    as (Hrep & _ & Hpe).
  destruct (session_events_counts names w) as (Hs1 & Hs2).
  destruct (polls_counts (S (length ticks))) as (Hp1 & Hp2).
  rewrite Hev, !count_where_app, Hrep, Hpe, Hs1, Hs2, Hp1, Hp2.
  by split.
Qed.

End More.

(** ** The further properties on the sample data *)

Lemma after_points_paired : paired after_points.
Proof.
  destruct (session_frame _ _ after_points_reached) as (Hs & Ho & _ & Hid & _).
  apply (paired_ext (after_snapshot demo_env demo_names fresh)); try done.
  apply after_snapshot_paired, fresh_valid.
Qed.

Lemma end_without_a_pool_witness :
  ws_pool (self browser_only) = None
  /\ quit_error demo_env = None
  /\ result (end_ demo_env 0) browser_only
     = Raise (AttributeError "'NoneType' object has no attribute 'end'")
  /\ events_of (end_ demo_env 0) browser_only
     = [BrowserQuit; AssignRunning false; AssignTwitchRunning false].
Proof.
  split; [reflexivity|]. split; [reflexivity|].
  destruct (end_without_a_pool demo_env 0 browser_only eq_refl eq_refl)
    as (Hres & Hev & _).
  split; [exact Hres | exact Hev].
Defined.

Lemma end_keeps_attributes_witness :
  quit_error demo_env = None
  /\ pool_end_error demo_env = None
  /\ start_datetime (self waiting) = Some 1000
  /\ ready waiting
  /\ twitch_browser (self (exec (end_ demo_env 1) waiting))
     = twitch_browser (self waiting)
  /\ ws_pool (self (exec (end_ demo_env 1) waiting)) = ws_pool (self waiting)
  /\ heap (exec (end_ demo_env 1) waiting) = heap waiting.
Proof.
  split; [reflexivity|]. split; [reflexivity|]. split; [reflexivity|].
  split; [exact waiting_ready|].
  destruct (end_keeps_attributes demo_env 1 1000 waiting
              eq_refl eq_refl eq_refl waiting_ready) as (_ & Hb & Hp & Hh).
  split; [exact Hb|]. split; [exact Hp | exact Hh].
Defined.

Lemma registry_when_waiting_witness :
  running (self fresh) = false
  /\ valid_refs fresh
  /\ live_streamers (exec (run demo_env demo_names []) fresh)
     = [ {| username := "alice"; channel_id := 123; is_online := true;
            channel_points := 500; history := [] |};
         {| username := "bob"; channel_id := 456; is_online := false;
            channel_points := 70; history := [] |} ].
Proof.
  split; [reflexivity|]. split; [exact fresh_valid|].
  rewrite (registry_when_waiting demo_env demo_names fresh
             eq_refl fresh_valid).
  reflexivity.
Defined.

Lemma snapshot_when_waiting_witness :
  running (self fresh) = false
  /\ valid_refs fresh
  /\ snapshot_streamers (exec (run demo_env demo_names []) fresh)
     = live_streamers (exec (run demo_env demo_names []) fresh)
  /\ 2%nat ∉ streamers (self (exec (run demo_env demo_names []) fresh)).
Proof.
  split; [reflexivity|]. split; [exact fresh_valid|].
  destruct (snapshot_when_waiting demo_env demo_names fresh
              eq_refl fresh_valid) as (Hcopy & _ & Hsep).
  split; [exact Hcopy|].
  apply Hsep. vm_compute. apply list_elem_of_here.
Defined.

Lemma run_trace_witness :
  running (self plain) = false
  /\ events_of (run demo_env ["ghost"; "bob"] []) plain
     = [LogStartSession "session-1"; AssignRunning true; Login;
        SleepJitter; GetChannelId "ghost"; LogDoesNotExist "ghost";
        SleepJitter; GetChannelId "bob";
        SleepJitter; LoadChannelPointsContext 0%nat;
        CheckStreamerOnline 0%nat;
        ThreadStart; PoolCreate;
        Submit (UserTopic "community-points-user-v1" 999);
        Submit (StreamerTopic "video-playback-by-id" 0%nat)].
Proof.
  split; [reflexivity|].
  rewrite (run_trace demo_env ["ghost"; "bob"] plain eq_refl).
  reflexivity.
Defined.

Lemma topics_submitted_count_witness :
  running (self fresh) = false
  /\ length (submitted (events_of (run demo_env demo_names []) fresh))
     = 8%nat.
Proof.
  split; [reflexivity|].
  rewrite (topics_submitted_count demo_env demo_names fresh eq_refl).
  reflexivity.
Defined.

Lemma attributes_when_waiting_witness :
  running (self plain) = false
  /\ twitch_browser (self (exec (run demo_env demo_names []) plain)) = None
  /\ ws_pool (self (exec (run demo_env demo_names []) plain))
     = Some {| pool_browser := None; pool_bet_settings := "bets" |}
  /\ session_id (self (exec (run demo_env demo_names []) plain))
     = "session-1".
Proof.
  split; [reflexivity|].
  destruct (attributes_when_waiting demo_env demo_names plain eq_refl)
    as (_ & _ & Hb & _ & Hp & _ & _ & _ & _ & _ & _ & Hsid & _).
  split; [exact Hb|]. split; [|exact Hsid].
  rewrite Hp, Hb. reflexivity.
Defined.

Lemma signal_with_failing_quit_witness :
  running (self fresh) = false
  /\ make_predictions (self fresh) = true
  /\ Forall quiet [quiet_tick]
  /\ quit_error broken_quit_env
     = Some (WebDriverException "chrome not reachable")
  /\ result (run broken_quit_env demo_names
               ([quiet_tick] ++ signal_tick :: [quiet_tick])) fresh
     = Raise (WebDriverException "chrome not reachable")
  /\ running (self (exec (run broken_quit_env demo_names
                            ([quiet_tick] ++ signal_tick :: [quiet_tick]))
                      fresh)) = true.
Proof.
  assert (Hq : Forall quiet [quiet_tick]) by (repeat constructor).
  split; [reflexivity|]. split; [reflexivity|]. split; [exact Hq|].
  split; [reflexivity|].
  destruct (signal_with_failing_quit broken_quit_env demo_names [quiet_tick]
              [quiet_tick] signal_tick 0
              (WebDriverException "chrome not reachable") fresh
              eq_refl eq_refl Hq eq_refl eq_refl) as (Hrun & Hr & _).
  split; [|exact Hr]. unfold result. by rewrite Hrun.
Defined.

Lemma run_again_witness :
  running (self fresh) = false
  /\ valid_refs fresh
  /\ Forall quiet [quiet_tick]
  /\ map username
       (live_streamers
          (exec (run demo_env demo_names [])
             (exec (run demo_env demo_names ([quiet_tick] ++ [flag_tick]))
                fresh)))
     = ["alice"; "bob"; "alice"; "bob"].
Proof.
  assert (Hq : Forall quiet [quiet_tick]) by (repeat constructor).
  split; [reflexivity|]. split; [exact fresh_valid|]. split; [exact Hq|].
  destruct (run_again demo_env demo_names demo_names [quiet_tick] flag_tick
              fresh eq_refl fresh_valid Hq eq_refl)
    as (_ & _ & _ & Hnames & _).
  exact Hnames.
Defined.

Lemma report_sections_witness :
  start_datetime (self after_points) = Some 1000
  /\ paired after_points
  /\ recaps_of (events_of print_report after_points) = []
  /\ bet_settings_of (events_of print_report after_points) = ["bets"]
  /\ map username (histories_of (events_of print_report after_points))
     = ["alice"].
Proof.
  split; [reflexivity|]. split; [exact after_points_paired|].
  destruct (report_sections after_points 1000 eq_refl after_points_paired)
    as (_ & Hbets & Hrec & _ & Hhist).
  split; [exact Hrec|]. split; [exact Hbets|].
  rewrite Hhist. reflexivity.
Defined.

Lemma interrupted_session_witness :
  running (self fresh) = false
  /\ valid_refs fresh
  /\ Forall quiet [quiet_tick; points_tick]
  /\ quit_error demo_env = None
  /\ pool_end_error demo_env = None
  /\ result (run demo_env demo_names
               ([quiet_tick; points_tick] ++ signal_tick :: [])) fresh
     = Raise (SystemExit 0)
  /\ count_where is_report
       (events_of (run demo_env demo_names
                     ([quiet_tick; points_tick] ++ signal_tick :: [])) fresh)
     = 1%nat.
Proof.
  assert (Hq : Forall quiet [quiet_tick; points_tick])
    by (repeat constructor).
  split; [reflexivity|]. split; [exact fresh_valid|]. split; [exact Hq|].
  split; [reflexivity|]. split; [reflexivity|].
  destruct (interrupted_session demo_env demo_names [quiet_tick; points_tick]
              [] signal_tick 0 fresh eq_refl fresh_valid Hq eq_refl
              eq_refl eq_refl) as (Hres & _ & Hrep & _).
  split; [exact Hres | exact Hrep].
Defined.
